(** * Detection-count stabilisation and notification pipeline

    A shallow embedding of the concurrent core of [jiance1.py]: the
    count stability monitor ([WatermarkGenerator]), the notification
    dispatcher ([AudioManager]), the frame hand-off of [CameraThread]
    and the part of [PillDetectorApp] that wires them together.

    Conventions of the embedding.
    - Every Python object is a record; a method is a function from the
      record (and the readings it takes from the environment) to the new
      record and the returned value.
    - [time.time()] is an argument [now] of the call that reads it.  It is
      a rational number of seconds: the comparisons of the source are
      modelled exactly, the rounding of float subtraction is not.
    - [random.randint(2, 5)] reads an oracle [randint : nat -> Z]; the
      number of draws made so far is carried next to the object, so that
      "how often was a duration drawn" is a fact about the state.
    - [logger] calls and the field [last_log_time], which only throttles
      them, are left out: no return value and no other field depends on
      them. *)

From Stdlib Require Import ZArith QArith Lqa Lia List Bool String Ascii.
From Stdlib Require Import DecimalString.
From Stdlib.Strings Require Byte.
Import ListNotations.

Local Open Scope Z_scope.

(** ** Python strings

    A [str] is a sequence of Unicode code points.  Only what the
    embedded methods use is defined: truthiness, [strip], [len],
    concatenation and the decimal rendering of an [int]. *)

Module PyStr.

Definition str := list N.

(** An ASCII literal as a [str]. *)
Fixpoint of_string (s : string) : str :=
  match s with
  | EmptyString => []
  | String c r => N_of_ascii c :: of_string r
  end.

(** [str.isspace] of a single code point. *)
Definition is_space (c : N) : bool :=
  (((9 <=? c) && (c <=? 13)) || ((28 <=? c) && (c <=? 32))
   || (c =? 133) || (c =? 160) || (c =? 5760)
   || ((8192 <=? c) && (c <=? 8202)) || (c =? 8232) || (c =? 8233)
   || (c =? 8239) || (c =? 8287) || (c =? 12288))%N.

Fixpoint lstrip (s : str) : str :=
  match s with
  | [] => []
  | c :: r => if is_space c then lstrip r else s
  end.

Definition rstrip (s : str) : str := rev (lstrip (rev s)).

(** [s.strip()] *)
Definition strip (s : str) : str := rstrip (lstrip s).

(** [len(s)] *)
Definition len (s : str) : Z := Z.of_nat (List.length s).

(** [bool(s)] *)
Definition truthy (s : str) : bool :=
  match s with [] => false | _ :: _ => true end.

(** [str(n)] for an [int]. *)
Definition of_int (n : Z) : str :=
  of_string (NilZero.string_of_int (Z.to_int n)).

End PyStr.

(** ** The count stability monitor: [WatermarkGenerator] *)

Module Monitor.

Record WatermarkGenerator := mkWatermark {
  custom_text : PyStr.str;
  max_pill_count : Z;
  max_pill_frame : Z;
  frame_count : Z;
  current_pill_count : Z;
  target_pills : Z;
  target_reached : bool;
  target_start_time : Q;
  target_stable_seconds : Z;
  success_message_shown : bool;
  notification_triggered : bool;
  success_timestamp : PyStr.str
}.

(** Field assignment, [self.f = v]. *)
Definition set_max_pill_count v s :=
  mkWatermark (custom_text s) v (max_pill_frame s) (frame_count s)
    (current_pill_count s) (target_pills s) (target_reached s)
    (target_start_time s) (target_stable_seconds s)
    (success_message_shown s) (notification_triggered s)
    (success_timestamp s).
Definition set_max_pill_frame v s :=
  mkWatermark (custom_text s) (max_pill_count s) v (frame_count s)
    (current_pill_count s) (target_pills s) (target_reached s)
    (target_start_time s) (target_stable_seconds s)
    (success_message_shown s) (notification_triggered s)
    (success_timestamp s).
Definition set_frame_count v s :=
  mkWatermark (custom_text s) (max_pill_count s) (max_pill_frame s) v
    (current_pill_count s) (target_pills s) (target_reached s)
    (target_start_time s) (target_stable_seconds s)
    (success_message_shown s) (notification_triggered s)
    (success_timestamp s).
Definition set_current_pill_count v s :=
  mkWatermark (custom_text s) (max_pill_count s) (max_pill_frame s)
    (frame_count s) v (target_pills s) (target_reached s)
    (target_start_time s) (target_stable_seconds s)
    (success_message_shown s) (notification_triggered s)
    (success_timestamp s).
Definition set_target v s :=
  mkWatermark (custom_text s) (max_pill_count s) (max_pill_frame s)
    (frame_count s) (current_pill_count s) v (target_reached s)
    (target_start_time s) (target_stable_seconds s)
    (success_message_shown s) (notification_triggered s)
    (success_timestamp s).
Definition set_target_reached v s :=
  mkWatermark (custom_text s) (max_pill_count s) (max_pill_frame s)
    (frame_count s) (current_pill_count s) (target_pills s) v
    (target_start_time s) (target_stable_seconds s)
    (success_message_shown s) (notification_triggered s)
    (success_timestamp s).
Definition set_target_start_time v s :=
  mkWatermark (custom_text s) (max_pill_count s) (max_pill_frame s)
    (frame_count s) (current_pill_count s) (target_pills s)
    (target_reached s) v (target_stable_seconds s)
    (success_message_shown s) (notification_triggered s)
    (success_timestamp s).
Definition set_target_stable_seconds v s :=
  mkWatermark (custom_text s) (max_pill_count s) (max_pill_frame s)
    (frame_count s) (current_pill_count s) (target_pills s)
    (target_reached s) (target_start_time s) v
    (success_message_shown s) (notification_triggered s)
    (success_timestamp s).
Definition set_success_message_shown v s :=
  mkWatermark (custom_text s) (max_pill_count s) (max_pill_frame s)
    (frame_count s) (current_pill_count s) (target_pills s)
    (target_reached s) (target_start_time s) (target_stable_seconds s)
    v (notification_triggered s) (success_timestamp s).
Definition set_notification_triggered v s :=
  mkWatermark (custom_text s) (max_pill_count s) (max_pill_frame s)
    (frame_count s) (current_pill_count s) (target_pills s)
    (target_reached s) (target_start_time s) (target_stable_seconds s)
    (success_message_shown s) v (success_timestamp s).
Definition set_success_timestamp v s :=
  mkWatermark (custom_text s) (max_pill_count s) (max_pill_frame s)
    (frame_count s) (current_pill_count s) (target_pills s)
    (target_reached s) (target_start_time s) (target_stable_seconds s)
    (success_message_shown s) (notification_triggered s) v.

(** The object together with the number of [random.randint] calls made
    on its behalf. *)
Record World := mkWorld {
  self : WatermarkGenerator;
  rng_calls : nat
}.

Definition with_self (w : World) (s : WatermarkGenerator) : World :=
  mkWorld s (rng_calls w).

(** [__init__], with the default caption passed in. *)
Definition init (caption : PyStr.str) : World :=
  mkWorld (mkWatermark caption 0 0 0 0 0 false 0%Q 0 false false []) 0.

(** [set_target_pills(count)] *)
Definition set_target_pills (count : Z) (w : World) : World :=
  let s := self w in
  let s := set_target count s in
  let s := set_target_reached false s in
  let s := set_success_message_shown false s in
  let s := set_notification_triggered false s in
  let s := set_success_timestamp [] s in
  with_self w s.

Section WithRandom.

(** [randint k] is what the [k]-th call of [random.randint(2, 5)]
    returns. *)
Variable randint : nat -> Z.

(** [update_stats(pill_count)], reading the clock as [now]. *)
Definition update_stats (now : Q) (pill_count : Z) (w : World)
  : bool * World :=
  let s := self w in
  let s := set_frame_count (frame_count s + 1) s in
  let s := set_current_pill_count pill_count s in
  let s := if max_pill_count s <? pill_count
           then set_max_pill_frame (frame_count s)
                  (set_max_pill_count pill_count s)
           else s in
  if 0 <? target_pills s then
    if pill_count =? target_pills s then
      if negb (target_reached s) then
        let s := set_target_reached true s in
        let s := set_target_start_time now s in
        let s := set_target_stable_seconds (randint (rng_calls w)) s in
        let s := set_notification_triggered false s in
        let s := set_success_message_shown false s in
        (false, mkWorld s (S (rng_calls w)))
      else if negb (success_message_shown s)
              && negb (notification_triggered s) then
        let elapsed := (now - target_start_time s)%Q in
        if Qle_bool (inject_Z (target_stable_seconds s)) elapsed
        then (true, with_self w s)
        else (false, with_self w s)
      else (false, with_self w s)
    else
      let s := set_target_reached false s in
      let s := set_success_message_shown false s in
      let s := set_notification_triggered false s in
      let s := set_target_start_time 0%Q s in
      let s := set_success_timestamp [] s in
      (false, with_self w s)
  else
    let s := set_target_reached false s in
    let s := set_success_message_shown false s in
    let s := set_notification_triggered false s in
    let s := set_success_timestamp [] s in
    (false, with_self w s).

End WithRandom.

(** [mark_notification_triggered()]; [stamp] is the formatted
    [datetime.now()]. *)
Definition mark_notification_triggered (stamp : PyStr.str) (w : World)
  : World :=
  let s := self w in
  let s := set_notification_triggered true s in
  let s := set_success_message_shown true s in
  let s := set_success_timestamp stamp s in
  with_self w s.

(** [reset_stats()] *)
Definition reset_stats (w : World) : World :=
  let s := self w in
  let s := set_max_pill_count 0 s in
  let s := set_max_pill_frame 0 s in
  let s := set_frame_count 0 s in
  let s := set_current_pill_count 0 s in
  let s := set_target_reached false s in
  let s := set_success_message_shown false s in
  let s := set_notification_triggered false s in
  let s := set_success_timestamp [] s in
  with_self w s.

End Monitor.

(** ** The notification dispatcher: [AudioManager]

    The speech engine is a sink: [say] hands it an utterance, and the
    completion of an utterance comes back later as the callback
    [_on_speech_end].  The engine of the source delivers the callback
    while [runAndWait] is still running; this is the execution in which
    every [speak] is followed at once by the completion event.  The
    calls into the engine can raise; the [Outcome] of an operation says
    how the calls it makes (if it makes any) end. *)

Module Audio.

Import PyStr.

(** The sink: the utterances it accepted, oldest first, and those among
    them it has not finished. *)
Record Engine := mkEngine {
  said : list str;
  playing : list str
}.

Record AudioManager := mkAudio {
  engine : option Engine;
  initialized : bool;
  message_queue : list str;
  is_speaking : bool
}.

Definition set_engine v a :=
  mkAudio v (initialized a) (message_queue a) (is_speaking a).
Definition set_message_queue v a :=
  mkAudio (engine a) (initialized a) v (is_speaking a).
Definition set_is_speaking v a :=
  mkAudio (engine a) (initialized a) (message_queue a) v.

(** [engine.say(text, text)] returning normally: the engine has the
    utterance. *)
Definition say (text : str) (e : Engine) : Engine :=
  mkEngine (said e ++ [text]) (playing e ++ [text]).

(** How the [try] block of [_speak_direct] ends: it runs to its end;
    [engine.say] raises, and the engine has not taken the utterance;
    [engine.say] returns and a later statement of the block, which is
    [engine.runAndWait()] or what follows it, raises, and the engine
    keeps the utterance. *)
Inductive Outcome := Returns | SayRaises | RunAndWaitRaises.

(** [__init__]: [engine_ok] tells whether [pyttsx3.init()] returned an
    engine, [setup_ok] whether the rest of [_init_audio] ran without an
    exception. *)
Definition init (engine_ok setup_ok : bool) : AudioManager :=
  mkAudio (if engine_ok then Some (mkEngine [] []) else None)
          (engine_ok && setup_ok) [] false.

(** [not self.initialized or not self.engine] *)
Definition unavailable (a : AudioManager) : bool :=
  negb (initialized a)
  || match engine a with None => true | Some _ => false end.

(** [_speak_direct(text)]: the flag is raised, then come the calls
    into the engine; the [except] clause lowers the flag, whichever
    statement raised. *)
Definition _speak_direct (ok : Outcome) (text : str) (a : AudioManager)
  : AudioManager :=
  if unavailable a then a
  else
    let a := set_is_speaking true a in
    match ok with
    | SayRaises => set_is_speaking false a
    | RunAndWaitRaises =>
        match engine a with
        | Some e => set_is_speaking false (set_engine (Some (say text e)) a)
        | None => a
        end
    | Returns =>
        match engine a with
        | Some e => set_engine (Some (say text e)) a
        | None => a
        end
    end.

(** [_process_next_message()] *)
Definition _process_next_message (ok : Outcome) (a : AudioManager)
  : AudioManager :=
  match message_queue a with
  | next_message :: rest =>
      if negb (is_speaking a)
      then _speak_direct ok next_message (set_message_queue rest a)
      else a
  | [] => a
  end.

(** [_on_speech_end(name, completed)] *)
Definition _on_speech_end (ok : Outcome) (a : AudioManager)
  : AudioManager :=
  let a := set_is_speaking false a in
  match message_queue a with
  | _ :: _ => _process_next_message ok a
  | [] => a
  end.

(** [not text or len(text.strip()) == 0], for [text] a [str] or [None]. *)
Definition blank (text : option str) : bool :=
  match text with
  | None => true
  | Some t => negb (truthy t) || (len (strip t) =? 0)
  end.

(** [speak(text)] *)
Definition speak (ok : Outcome) (text : option str) (a : AudioManager)
  : AudioManager :=
  if unavailable a then a
  else if blank text then a
  else
    match text with
    | Some t =>
        let a := set_message_queue (message_queue a ++ [t]) a in
        if negb (is_speaking a) then _process_next_message ok a else a
    | None => a
    end.

(** [engine.stop()] returning normally: the engine drops what it has
    not finished. *)
Definition halt (e : Engine) : Engine := mkEngine (said e) [].

(** [stop()].  Its statements share one [try]: [engine_stops] and
    [mixer_quits] tell whether [engine.stop()] and [pygame.mixer.quit()]
    return, and a raise skips the rest of the block.  An engine whose
    [stop()] raised goes on as before. *)
Definition stop (engine_stops mixer_quits : bool) (a : AudioManager)
  : AudioManager :=
  let clear a := set_is_speaking false (set_message_queue [] a) in
  match engine a with
  | Some e =>
      if engine_stops then
        let a := set_engine (Some (halt e)) a in
        if mixer_quits then clear a else a
      else a
  | None => if mixer_quits then clear a else a
  end.

(** The sink finishes its oldest utterance and delivers the
    ['finished-utterance'] event. *)
Definition utterance_finished (ok : Outcome) (a : AudioManager)
  : AudioManager :=
  let a :=
    match engine a with
    | Some e => set_engine (Some (mkEngine (said e) (tl (playing e)))) a
    | None => a
    end in
  _on_speech_end ok a.

(** What the dispatcher is driven by: calls of [speak] and completion
    events, in any order. *)
Inductive Op :=
| Speak (text : option str) (ok : Outcome)
| Finished (ok : Outcome).

Definition exec_op (a : AudioManager) (o : Op) : AudioManager :=
  match o with
  | Speak text ok => speak ok text a
  | Finished ok => utterance_finished ok a
  end.

Definition exec (ops : list Op) (a : AudioManager) : AudioManager :=
  fold_left exec_op ops a.

End Audio.

(** ** The frame source: [CameraThread]

    The thread object is shared by the acquisition thread, which runs
    [run], and the processing loop, which calls [get_frame] and [stop].
    [run] is cut into steps at its calls; an execution of the two threads
    is a sequence of events, each a step of [run] or a call from the
    processing loop. *)

Module Camera.

Section WithFrame.

Context {Frame : Type}.

(** [queue.Queue]: [put] on a full queue blocks, which is [None]
    here; [get_nowait] on an empty queue raises [Empty], also
    [None]. *)
Record Queue := mkQueue {
  maxsize : Z;
  items : list Frame
}.

Definition qsize (q : Queue) : Z := Z.of_nat (List.length (items q)).

Definition full (q : Queue) : bool :=
  (0 <? maxsize q) && (maxsize q <=? qsize q).

Definition get_nowait (q : Queue) : option (Frame * Queue) :=
  match items q with
  | [] => None
  | x :: r => Some (x, mkQueue (maxsize q) r)
  end.

Definition put (x : Frame) (q : Queue) : option Queue :=
  if full q then None else Some (mkQueue (maxsize q) (items q ++ [x])).

(** [cv2.VideoCapture]: all the embedding needs is whether the
    handle holds the device. *)
Record VideoCapture := mkCapture { isOpened : bool }.

Definition release (c : VideoCapture) : VideoCapture := mkCapture false.

Record CameraThread := mkThread {
  camera_index : Z;
  width : Z;
  height : Z;
  running : bool;
  frame_queue : Queue;
  camera : option VideoCapture
}.

Definition set_running v t :=
  mkThread (camera_index t) (width t) (height t) v (frame_queue t)
    (camera t).
Definition set_frame_queue v t :=
  mkThread (camera_index t) (width t) (height t) (running t) v
    (camera t).
Definition set_camera v t :=
  mkThread (camera_index t) (width t) (height t) (running t)
    (frame_queue t) v.

(** [__init__(camera_index, width, height)] *)
Definition init (index w h : Z) : CameraThread :=
  mkThread index w h true (mkQueue 1 []) None.

(** [get_frame()] *)
Definition get_frame (t : CameraThread) : option Frame * CameraThread :=
  match get_nowait (frame_queue t) with
  | Some (frame, q) => (Some frame, set_frame_queue q t)
  | None => (None, t)
  end.

(** The two statements of [stop()], and [stop()] itself. *)
Definition stop_signal (t : CameraThread) : CameraThread :=
  set_running false t.

Definition stop_release (t : CameraThread) : CameraThread :=
  match camera t with
  | Some c => set_camera (Some (release c)) t
  | None => t
  end.

Definition stop (t : CameraThread) : CameraThread :=
  stop_release (stop_signal t).

(** The [if ret:] block of the loop of [run], on the queue: drop the
    unread frame if there is one, then [put].  [None] when [put]
    blocks. *)
Definition publish (frame : Frame) (q : Queue) : option Queue :=
  let q :=
    if full q then
      match get_nowait q with
      | Some (_, q') => q'
      | None => q
      end
    else q in
  put frame q.

Fixpoint publish_all (frames : list Frame) (q : Queue) : option Queue :=
  match frames with
  | [] => Some q
  | f :: r =>
      match publish f q with
      | Some q' => publish_all r q'
      | None => None
      end
  end.

(** *** [run] as a step function *)

Inductive Backend := CAP_DSHOW | CAP_MSMF | CAP_ANY.

(** Where [run] stands: the statement it executes next. *)
Inductive Pc :=
| AtOpen (backends : list Backend)
| AtCheck
| AtConfigure
| AtWhile
| AtRead
| AtFull (frame : Frame)
| AtGet (frame : Frame)
| AtPut (frame : Frame)
| AtWaitKey
| AtFinally
| Exited.

(** What the environment answers to the call of a step: whether the
    device opens, what [read] delivers, whether the call raises. *)
Record Answer := mkAnswer {
  opens : bool;
  delivers : option Frame;
  raises : bool
}.

Definition holds_device (t : CameraThread) : bool :=
  match camera t with
  | Some c => isOpened c
  | None => false
  end.

Definition thread_step (env : Answer) (t : CameraThread) (pc : Pc)
  : CameraThread * Pc :=
  match pc with
  | AtOpen [] => (t, AtCheck)
  | AtOpen (_ :: backends) =>
      if raises env then (t, AtOpen backends)
      else
        let t := set_camera (Some (mkCapture (opens env))) t in
        if opens env then (t, AtCheck) else (t, AtOpen backends)
  | AtCheck =>
      if holds_device t then (t, AtConfigure) else (t, AtFinally)
  | AtConfigure =>
      if raises env then (t, AtFinally) else (t, AtWhile)
  | AtWhile =>
      if running t then (t, AtRead) else (t, AtFinally)
  | AtRead =>
      if raises env then (t, AtFinally)
      else
        match (if holds_device t then delivers env else None) with
        | Some frame => (t, AtFull frame)
        | None => (t, AtWaitKey)
        end
  | AtFull frame =>
      if full (frame_queue t) then (t, AtGet frame) else (t, AtPut frame)
  | AtGet frame =>
      match get_nowait (frame_queue t) with
      | Some (_, q) => (set_frame_queue q t, AtPut frame)
      | None => (t, AtPut frame)
      end
  | AtPut frame =>
      match put frame (frame_queue t) with
      | Some q => (set_frame_queue q t, AtWaitKey)
      | None => (t, AtPut frame)
      end
  | AtWaitKey =>
      if raises env then (t, AtFinally) else (t, AtWhile)
  | AtFinally => (stop t, Exited)
  | Exited => (t, Exited)
  end.

(** [start()] puts [run] at its first statement. *)
Definition start (t : CameraThread) : CameraThread * Pc :=
  (t, AtOpen [CAP_DSHOW; CAP_MSMF; CAP_ANY]).

(** An event of an execution: a step of [run], one of the two
    statements of a [stop()] called by the processing loop, or its
    [get_frame()]. *)
Inductive Event :=
| ThreadStep (env : Answer)
| StopSignal
| StopRelease
| GetFrame.

Definition exec_event (s : CameraThread * Pc) (e : Event)
  : CameraThread * Pc :=
  let (t, pc) := s in
  match e with
  | ThreadStep env => thread_step env t pc
  | StopSignal => (stop_signal t, pc)
  | StopRelease => (stop_release t, pc)
  | GetFrame => (snd (get_frame t), pc)
  end.

Definition exec (events : list Event) (s : CameraThread * Pc)
  : CameraThread * Pc :=
  fold_left exec_event events s.

(** A whole call of [stop()] by the processing loop. *)
Definition CallStop : list Event := [StopSignal; StopRelease].

Definition alive (pc : Pc) : bool :=
  match pc with Exited => false | _ => true end.

End WithFrame.

End Camera.

(** ** The processing loop: [PillDetectorApp]

    Only the part of a tick between the detection and the drawing is
    embedded.  The calls the loop makes to its collaborators are
    recorded, in order, in [calls]. *)

Module App.

Import PyStr.

Inductive Call :=
| PlayBeep
| Speak (text : str)
| MarkNotificationTriggered.

Record PillDetectorApp := mkApp {
  watermark : Monitor.World;
  audio_manager : Audio.AudioManager;
  detecting : bool;
  current_model : bool;
  calls : list Call
}.

Definition set_watermark v a :=
  mkApp v (audio_manager a) (detecting a) (current_model a) (calls a).
Definition set_audio_manager v a :=
  mkApp (watermark a) v (detecting a) (current_model a) (calls a).
Definition record (c : Call) a :=
  mkApp (watermark a) (audio_manager a) (detecting a) (current_model a)
    (calls a ++ [c]).

(** The literal tail of the announcement, five CJK code points. *)
Definition announcement_tail : str := [29255; 21457; 33647; 25104; 21151]%N.

(** What one tick reads from outside the embedded objects: the clock,
    the formatted date, the value of [target_pills_var] ([None] when
    [get()] raises), and how the calls into the speech engine end. *)
Record Reading := mkReading {
  now : Q;
  stamp : str;
  target_pills_var : option Z;
  engine_ok : Audio.Outcome
}.

(** [_trigger_success_notification()]; an exception leaves through
    the [except] clause of the method. *)
Definition _trigger_success_notification (r : Reading)
    (a : PillDetectorApp) : PillDetectorApp :=
  let a := record PlayBeep a in
  match target_pills_var r with
  | None => a
  | Some n =>
      let success_message :=
        Monitor.custom_text (Monitor.self (watermark a))
          ++ of_int n ++ announcement_tail in
      let a := record (Speak success_message) a in
      let a :=
        set_audio_manager
          (Audio.speak (engine_ok r) (Some success_message)
             (audio_manager a)) a in
      let a := record MarkNotificationTriggered a in
      set_watermark
        (Monitor.mark_notification_triggered (stamp r) (watermark a)) a
  end.

Section WithRandom.

Variable randint : nat -> Z.

(** The detection part of [_update_video()], once a frame has been
    taken.  [results] is [None] when the model returns nothing and
    [Some n] when it returns [n] boxes. *)
Definition _update_video (r : Reading) (results : option Z)
    (a : PillDetectorApp) : PillDetectorApp :=
  if detecting a && current_model a then
    match results with
    | Some pill_count =>
        let (target_reached, wm) :=
          Monitor.update_stats randint (now r) pill_count (watermark a)
        in
        let a := set_watermark wm a in
        if target_reached then _trigger_success_notification r a else a
    | None => a
    end
  else
    set_watermark
      (snd (Monitor.update_stats randint (now r) 0 (watermark a))) a.

End WithRandom.

End App.

(** * Specifications

    The definitions below are not taken from the source: they describe
    how the objects are driven and what is observed of them. *)

(** ** Driving the monitor *)

Module Protocol.

Import Monitor.

(** One observation: the clock reading of the call, the count passed,
    and the date string a notification would record. *)
Record Obs := mkObs {
  obs_time : Q;
  obs_count : Z;
  obs_stamp : PyStr.str
}.

Section WithRandom.

Variable randint : nat -> Z.

(** A tick as the processing loop performs it: [update_stats], and
    [mark_notification_triggered] at once when it returned [True]. *)
Definition tick (w : World) (o : Obs) : bool * World :=
  let (fired, w') := update_stats randint (obs_time o) (obs_count o) w in
  if fired then (true, mark_notification_triggered (obs_stamp o) w')
  else (false, w').

(** The state after a sequence of ticks. *)
Definition run (w : World) (os : list Obs) : World :=
  fold_left (fun w o => snd (tick w o)) os w.

(** What [update_stats] returns for [o] when the ticks [pre] came
    before it. *)
Definition fires (w : World) (pre : list Obs) (o : Obs) : bool :=
  fst (update_stats randint (obs_time o) (obs_count o) (run w pre)).

(** The answers of [update_stats] along a sequence of ticks. *)
Fixpoint answers (w : World) (os : list Obs) : list bool :=
  match os with
  | [] => []
  | o :: r => fst (tick w o) :: answers (snd (tick w o)) r
  end.

(** [reachable w pending]: the monitor can be in state [w] when it is
    driven by the protocol, where [mark_notification_triggered] is
    called exactly after an [update_stats] that returned [True], and
    before anything else.  [pending] tells that such a call is due.
    The clock is read after the epoch. *)
Inductive reachable : World -> bool -> Prop :=
| reach_init caption :
    reachable (init caption) false
| reach_set_target w count :
    reachable w false ->
    reachable (set_target_pills count w) false
| reach_update_stats w now pill_count :
    reachable w false ->
    (0 < now)%Q ->
    reachable (snd (update_stats randint now pill_count w))
              (fst (update_stats randint now pill_count w))
| reach_mark w stamp :
    reachable w true ->
    reachable (mark_notification_triggered stamp w) false
| reach_reset w :
    reachable w false ->
    reachable (reset_stats w) false.

End WithRandom.

(** [pre] ends where a run of counts equal to [T] can begin: it is
    empty or its last count differs from [T]. *)
Definition run_may_begin (T : Z) (pre : list Obs) : Prop :=
  pre = [] \/ exists p x, pre = p ++ [x] /\ obs_count x <> T.

(** The reach time of a state is set: it is not the [0] it is
    initialised with and reset to. *)
Definition start_time_set (w : World) : Prop :=
  ~ (target_start_time (self w) == 0)%Q.

(** The two timers of an episode have the values [__init__] gives
    them. *)
Definition timers_reset (w : World) : Prop :=
  (target_start_time (self w) == 0)%Q
  /\ target_stable_seconds (self w) = 0.

(** The flags of an episode have the values [__init__] gives them. *)
Definition flags_reset (w : World) : Prop :=
  target_reached (self w) = false
  /\ success_message_shown (self w) = false
  /\ notification_triggered (self w) = false
  /\ success_timestamp (self w) = [].

(** The monitor as the design describes it: outside an episode, inside
    one and waiting for the settle duration [settle] counted from
    [start], or inside one whose notification was sent. *)
Inductive Phase :=
| Idle
| Waiting (start : Q) (settle : Z)
| Notified.

(** One observation on a phase; [draw] is the settle duration a new
    episode would get. *)
Definition phase_step (T : Z) (draw : Z) (ph : Phase) (o : Obs)
  : bool * Phase :=
  if obs_count o =? T then
    match ph with
    | Idle => (false, Waiting (obs_time o) draw)
    | Waiting start settle =>
        if Qle_bool (inject_Z settle) (obs_time o - start)
        then (true, Notified)
        else (false, Waiting start settle)
    | Notified => (false, Notified)
    end
  else (false, Idle).

Fixpoint phase_answers (T : Z) (draw : Z) (ph : Phase) (os : list Obs)
  : list bool :=
  match os with
  | [] => []
  | o :: r =>
      fst (phase_step T draw ph o)
      :: phase_answers T draw (snd (phase_step T draw ph o)) r
  end.

(** The state [w] of the code is in phase [ph] for the target [T]. *)
Definition in_phase (T : Z) (w : World) (ph : Phase) : Prop :=
  target_pills (self w) = T
  /\ match ph with
     | Idle => target_reached (self w) = false
     | Waiting start settle =>
         target_reached (self w) = true
         /\ success_message_shown (self w) = false
         /\ notification_triggered (self w) = false
         /\ target_start_time (self w) = start
         /\ target_stable_seconds (self w) = settle
     | Notified =>
         target_reached (self w) = true
         /\ success_message_shown (self w) = true
     end.

(** Counts sampled once per second from the instant [t] on. *)
Fixpoint sampled (t : Q) (counts : list Z) : list Obs :=
  match counts with
  | [] => []
  | c :: r => mkObs t c [] :: sampled (t + 1) r
  end.

(** The scenario of the settle test: target 5, every draw of the
    settle duration is 2 seconds. *)
Definition scenario_counts : list Z := [5; 5; 5; 4; 5; 5; 5; 5].

Definition always_two : nat -> Z := fun _ => 2.

Definition scenario_answers (w0 : World) (t0 : Q) : list bool :=
  answers always_two (set_target_pills 5 w0) (sampled t0 scenario_counts).

End Protocol.

(** ** Observing the dispatcher *)

Module Dispatch.

Import PyStr Audio.

(** [l1] is [l2] with some elements left out. *)
Inductive subseq {A : Type} : list A -> list A -> Prop :=
| subseq_nil : subseq [] []
| subseq_take x l1 l2 : subseq l1 l2 -> subseq (x :: l1) (x :: l2)
| subseq_skip x l1 l2 : subseq l1 l2 -> subseq l1 (x :: l2).

(** The texts the calls of [speak] among [ops] ask to announce, in call
    order: every text that is not blank, as often as it is passed. *)
Fixpoint enqueued (ops : list Op) : list str :=
  match ops with
  | [] => []
  | Speak (Some t) _ :: r =>
      if blank (Some t) then enqueued r else t :: enqueued r
  | _ :: r => enqueued r
  end.

(** How the calls into the engine that [o] makes, if any, end. *)
Definition outcome (o : Op) : Outcome :=
  match o with Speak _ ok => ok | Finished ok => ok end.

(** No call into the engine made by [o] raises. *)
Definition op_ok (o : Op) : bool :=
  match outcome o with Returns => true | _ => false end.

(** The engine takes the utterance [o] hands it, if any. *)
Definition say_returns (o : Op) : bool :=
  match outcome o with SayRaises => false | _ => true end.

(** Nothing raises in [o] once the engine has taken an utterance. *)
Definition run_returns (o : Op) : bool :=
  match outcome o with RunAndWaitRaises => false | _ => true end.

(** A text is [None], empty or made of white space only. *)
Definition silent_text (text : option str) : Prop :=
  match text with
  | None => True
  | Some t => forallb is_space t = true
  end.

(** An initialised dispatcher that has not been used. *)
Definition fresh : AudioManager := Audio.init true true.

(** The sink of a dispatcher that has one. *)
Definition sink (a : AudioManager) : Engine :=
  match engine a with
  | Some e => e
  | None => mkEngine [] []
  end.

(** The sink has at most one unfinished utterance, and none when the
    speaking flag is down. *)
Definition single_flight (a : AudioManager) : Prop :=
  (List.length (playing (sink a)) <= 1)%nat
  /\ (is_speaking a = false -> playing (sink a) = []).

(** What holds of a dispatcher after the operations [ops]: it has its
    sink; the texts taken off the queue so far, [handed], followed by
    the queue are the enqueued texts in call order; the sink was given
    texts of [handed] in that order, and all of them if [say] never
    raised; the utterances the sink has not finished are the last it
    was given; it has at most one of them if nothing raised after a
    [say]. *)
Definition dispatcher_inv (ops : list Op) (a : AudioManager) : Prop :=
  exists e handed finished,
    engine a = Some e
    /\ initialized a = true
    /\ enqueued ops = handed ++ message_queue a
    /\ subseq (said e) handed
    /\ (forallb say_returns ops = true -> said e = handed)
    /\ said e = finished ++ playing e
    /\ (forallb run_returns ops = true -> single_flight a).

(** As many completion events as there are queued messages. *)
Definition drain (a : AudioManager) : list Op :=
  repeat (Finished Returns) (List.length (message_queue a)).

End Dispatch.

(** ** Observing the frame source *)

Module Handoff.

Import Camera.

Section WithFrame.

Context {Frame : Type}.

(** The producer writes [frames], oldest first, with no read in
    between.  [None] when one of the writes blocks. *)
Definition publish_frames (frames : list Frame) (t : CameraThread)
  : option CameraThread :=
  match publish_all frames (frame_queue t) with
  | Some q => Some (set_frame_queue q t)
  | None => None
  end.

(** The queue is the single slot [__init__] creates, holding at most
    one frame. *)
Definition slot_ok (t : CameraThread (Frame := Frame)) : Prop :=
  maxsize (frame_queue t) = 1
  /\ (List.length (items (frame_queue t)) <= 1)%nat.

(** What holds along every execution: the slot is in order, it is
    empty when [run] is about to [put], and once [run] has returned
    the running flag is down and the device released. *)
Definition thread_inv (s : CameraThread * Pc (Frame := Frame)) : Prop :=
  slot_ok (fst s)
  /\ (forall f, snd s = AtPut f -> items (frame_queue (fst s)) = [])
  /\ (alive (snd s) = false ->
      running (fst s) = false /\ holds_device (fst s) = false).

(** An upper bound on the steps [run] still takes once the running
    flag is down. *)
Definition steps_to_exit (pc : Pc (Frame := Frame)) : nat :=
  match pc with
  | AtOpen backends => 5 + List.length backends
  | AtCheck => 4
  | AtConfigure => 3
  | AtRead => 7
  | AtFull _ => 6
  | AtGet _ => 5
  | AtPut _ => 4
  | AtWaitKey => 3
  | AtWhile => 2
  | AtFinally => 1
  | Exited => 0
  end.

(** The number of steps of [run] among the events. *)
Fixpoint thread_steps (events : list (Event (Frame := Frame))) : nat :=
  match events with
  | [] => 0
  | ThreadStep _ :: r => S (thread_steps r)
  | _ :: r => thread_steps r
  end.

End WithFrame.

(** Executions of a camera thread for device 0 whose frames are not
    looked into. *)
Definition camera0 : CameraThread * Pc (Frame := unit) :=
  start (init 0 800 600).

(** The device opens at the first attempt; no frame is delivered. *)
Definition device_opens : Answer (Frame := unit) :=
  mkAnswer true None false.

(** [run] opens the device, configures it and enters its loop. *)
Definition enters_loop : list (Event (Frame := unit)) :=
  [ThreadStep device_opens; ThreadStep device_opens;
   ThreadStep device_opens; ThreadStep device_opens].

(** [stop()], called after the events [before], returns when [run]
    has returned. *)
Definition stop_returns_after_exit (before : list Event) : Prop :=
  alive (snd (exec (before ++ CallStop) camera0)) = false.

(** After a [stop()] that follows [before], the device is free
    whatever happens next. *)
Definition device_free_after_stop (before after : list Event) : Prop :=
  holds_device (fst (exec (before ++ CallStop ++ after) camera0)) = false.

End Handoff.

(** ** Observing the processing loop *)

Module Loop.

Import App.

Definition is_mark (c : Call) : bool :=
  match c with MarkNotificationTriggered => true | _ => false end.

Definition is_speak (c : Call) : bool :=
  match c with Speak _ => true | _ => false end.

(** Some call satisfying [p] comes before some call satisfying [q]. *)
Fixpoint occurs_before (p q : Call -> bool) (l : list Call) : bool :=
  match l with
  | [] => false
  | c :: r => (p c && existsb q r) || occurs_before p q r
  end.

(** A loop with detection on, a two-character caption and a fresh
    dispatcher, whose monitor has target 5 and saw the count 5 at
    time 0, with a settle duration of 2 seconds. *)
Definition waiting_app : PillDetectorApp :=
  mkApp
    (snd (Monitor.update_stats Protocol.always_two 0 5
            (Monitor.set_target_pills 5
               (Monitor.init (PyStr.of_string "Rx")))))
    Dispatch.fresh true true [].

(** The tick two seconds later, with the count still 5. *)
Definition firing_reading : Reading :=
  mkReading 2 (PyStr.of_string "2026-01-01 00:00:02") (Some 5)
    Audio.Returns.

Definition firing_tick : PillDetectorApp :=
  _update_video Protocol.always_two firing_reading (Some 5) waiting_app.

End Loop.

(** * The rest of the detection program

    The functions of [jiance1.py] around the pipeline: the model file
    format, the position and the text of the overlay, the statistics of
    the monitor, the shutdown of the dispatcher and the model list.
    [RPModelHandler] and [CameraThread] are the same in [xunlian.py]. *)

(** ** Model files: [RPModelHandler]

    A file is the sequence of its bytes.  Opening a file can raise:
    the file read is then [None], and [writable] tells whether the file
    to write can be opened.  [hashlib.md5] is a parameter. *)

Module ModelFile.

Definition bytes := list Byte.byte.

Definition HEADER : bytes := list_byte_of_string "PILL_MODEL_RP_2026".

Definition KEY : Byte.byte := Byte.x5a.

(** [b ^ k] on bytes. *)
Definition xor (b k : Byte.byte) : Byte.byte :=
  match Byte.of_N (N.lxor (Byte.to_N b) (Byte.to_N k)) with
  | Some c => c
  | None => b
  end.

(** [bytes([b ^ RPModelHandler.KEY for b in data])] *)
Definition xor_key (data : bytes) : bytes :=
  map (fun b => xor b KEY) data.

(** [a != b] on byte strings. *)
Definition differ (a b : bytes) : bool :=
  if list_eq_dec Byte.byte_eq_dec a b then false else true.

Section WithDigest.

(** [hashlib.md5(data).digest()] *)
Variable md5 : bytes -> bytes.

(** [encrypt_model(pt_path, rp_path)]: the answer and the file
    written, if any. *)
Definition encrypt_model (pt_file : option bytes) (writable : bool)
  : bool * option bytes :=
  match pt_file with
  | None => (false, None)
  | Some model_data =>
      let digest := md5 model_data in
      let encrypted_data := xor_key model_data in
      if writable
      then (true, Some (HEADER ++ digest ++ encrypted_data))
      else (false, None)
  end.

(** [decrypt_model(rp_path, pt_path)]: the answer and the file
    written, if any. *)
Definition decrypt_model (rp_file : option bytes) (writable : bool)
  : bool * option bytes :=
  match rp_file with
  | None => (false, None)
  | Some content =>
      let header := firstn 16 content in
      if differ header HEADER then (false, None)
      else
        let digest := firstn 16 (skipn 16 content) in
        let encrypted_data := skipn 32 content in
        let model_data := xor_key encrypted_data in
        if differ (md5 model_data) digest then (false, None)
        else if writable then (true, Some model_data)
        else (false, None)
  end.

End WithDigest.

End ModelFile.

(** ** The overlay: position and text of [WatermarkGenerator]

    The fields of the object that place the overlay are kept in a
    record of their own; the methods below touch no other field.
    Coordinates in per cent are rationals, pixels are integers. *)

Module Overlay.

Import PyStr.

(** [a < b] on numbers. *)
Definition Qlt_bool (a b : Q) : bool := negb (Qle_bool b a).

(** [max(a, b)] and [min(a, b)]: the first argument unless the second
    is strictly larger, or smaller. *)
Definition py_max (a b : Q) : Q := if Qlt_bool a b then b else a.
Definition py_min (a b : Q) : Q := if Qlt_bool b a then b else a.

(** [int(x)]: the integer part, towards zero. *)
Definition int (x : Q) : Z := Z.quot (Qnum x) (Zpos (Qden x)).

Record Placement := mkPlacement {
  position_x : Q;
  position_y : Q;
  dragging : bool;
  drag_start_pos : Z * Z
}.

(** The part of [__init__] that sets these fields. *)
Definition init : Placement := mkPlacement (2 # 100) (2 # 100) false (0, 0).

(** [set_position(x_percent, y_percent)] *)
Definition set_position (x_percent y_percent : Q) (p : Placement)
  : Placement :=
  mkPlacement (py_max 0 (py_min 1 x_percent))
              (py_max 0 (py_min 1 y_percent))
              (dragging p) (drag_start_pos p).

(** [start_drag(x, y, frame_width, frame_height)] *)
Definition start_drag (x y frame_width frame_height : Z) (p : Placement)
  : Placement :=
  mkPlacement (position_x p) (position_y p) true (x, y).

(** [update_drag(x, y, frame_width, frame_height)]; [None] when a
    division raises [ZeroDivisionError], which happens before any field
    is assigned. *)
Definition update_drag (x y frame_width frame_height : Z) (p : Placement)
  : option Placement :=
  if dragging p then
    let dx := x - fst (drag_start_pos p) in
    let dy := y - snd (drag_start_pos p) in
    if (frame_width =? 0) || (frame_height =? 0) then None
    else
      let dx_percent := (inject_Z dx / inject_Z frame_width)%Q in
      let dy_percent := (inject_Z dy / inject_Z frame_height)%Q in
      Some (mkPlacement
              (py_max 0 (py_min 1 (position_x p + dx_percent)))
              (py_max 0 (py_min 1 (position_y p + dy_percent)))
              (dragging p) (x, y))
  else Some p.

(** [end_drag()] *)
Definition end_drag (p : Placement) : Placement :=
  mkPlacement (position_x p) (position_y p) false (drag_start_pos p).

(** What [draw.textbbox] returns for a line: left, top, right,
    bottom. *)
Definition BBox := (Z * Z * Z * Z)%type.

(** The measuring loop of [add_watermark]: the largest line width and
    the height of all lines with their 5 pixels of spacing. *)
Definition measure (boxes : list BBox) : Z * Z :=
  fold_left
    (fun acc bbox =>
       let '(max_line_width, total_height) := acc in
       let '(x0, y0, x1, y1) := bbox in
       let line_width := x1 - x0 in
       let line_height := y1 - y0 in
       (Z.max max_line_width line_width, total_height + (line_height + 5)))
    boxes (0, 0).

Definition bg_width (boxes : list BBox) : Z := fst (measure boxes) + 20.
Definition bg_height (boxes : list BBox) : Z := snd (measure boxes) + 20.

(** One coordinate of the corner of the background: the position in
    per cent of the extent, pulled back when the background would pass
    the far edge, and set to 10 when that leaves it negative. *)
Definition corner (extent size : Z) (percent : Q) : Z :=
  let pos := int (inject_Z extent * percent) in
  let pos := if extent <? pos + size then extent - size - 10 else pos in
  if pos <? 0 then 10 else pos.

(** The corner [pos_x, pos_y] of the background that [add_watermark]
    draws on a frame of the given size. *)
Definition background_corner (width height : Z) (p : Placement)
    (boxes : list BBox) : Z * Z :=
  (corner width (bg_width boxes) (position_x p),
   corner height (bg_height boxes) (position_y p)).

(** A line of the overlay: the text it is formatted from. *)
Inductive Line :=
| TimeLine (current_time : str)
| CurrentCountLine (count : Z)
| MaxCountLine (count frame : Z)
| TargetLine (target : Z)
| CountdownLine (remaining : Q)
| SuccessLine (text : str) (target : Z)
| SuccessTimeLine (stamp : str)
| CaptionLine (text : str).

(** [info_lines] of [add_watermark], with the clock read as [now] and
    the formatted date as [current_time]. *)
Definition info_lines (now : Q) (current_time : str)
    (s : Monitor.WatermarkGenerator) : list Line :=
  let info_lines :=
    [TimeLine current_time;
     CurrentCountLine (Monitor.current_pill_count s);
     MaxCountLine (Monitor.max_pill_count s) (Monitor.max_pill_frame s)] in
  let info_lines :=
    if 0 <? Monitor.target_pills s then
      let info_lines := info_lines ++ [TargetLine (Monitor.target_pills s)] in
      if Monitor.target_reached s && negb (Monitor.success_message_shown s)
      then
        let elapsed := (now - Monitor.target_start_time s)%Q in
        let remaining :=
          py_max 0 (inject_Z (Monitor.target_stable_seconds s) - elapsed) in
        info_lines ++ [CountdownLine remaining]
      else if Monitor.success_message_shown s then
        info_lines
          ++ [SuccessLine (Monitor.custom_text s) (Monitor.target_pills s)]
          ++ [SuccessTimeLine (Monitor.success_timestamp s)]
      else info_lines
    else info_lines in
  info_lines ++ [CaptionLine (Monitor.custom_text s)].

(** The calls that move the overlay. *)
Inductive Op :=
| SetPosition (x_percent y_percent : Q)
| StartDrag (x y frame_width frame_height : Z)
| UpdateDrag (x y frame_width frame_height : Z)
| EndDrag.

(** A call that raises leaves the object as it was. *)
Definition exec_op (p : Placement) (o : Op) : Placement :=
  match o with
  | SetPosition x y => set_position x y p
  | StartDrag x y w h => start_drag x y w h p
  | UpdateDrag x y w h =>
      match update_drag x y w h p with
      | Some p' => p'
      | None => p
      end
  | EndDrag => end_drag p
  end.

Definition exec (ops : list Op) (p : Placement) : Placement :=
  fold_left exec_op ops p.

(** Both coordinates are between 0 and 1. *)
Definition in_frame (p : Placement) : Prop :=
  (0 <= position_x p <= 1)%Q /\ (0 <= position_y p <= 1)%Q.

End Overlay.

(** ** Observing the shutdown of the dispatcher *)

Module Shutdown.

Import PyStr Audio.

(** The dispatcher [a] with a sink that was given the texts [before]
    in an earlier life. *)
Definition with_said_before (before : list str) (a : AudioManager)
  : AudioManager :=
  match engine a with
  | Some e => set_engine (Some (mkEngine (before ++ said e) (playing e))) a
  | None => a
  end.

End Shutdown.

(** ** Observing a frame source whose device does not open *)

Module Unavailable.

Import Camera.

Section WithFrame.

Context {Frame : Type}.

(** No attempt of [run] to open the device succeeds. *)
Definition never_opens (events : list (Event (Frame := Frame))) : Prop :=
  Forall (fun e => match e with
                   | ThreadStep env => opens env = false
                   | _ => True
                   end) events.

(** An upper bound on the steps [run] takes when the device does not
    open. *)
Definition steps_to_give_up (pc : Pc (Frame := Frame)) : nat :=
  match pc with
  | AtOpen backends => 3 + List.length backends
  | AtCheck => 2
  | AtFinally => 1
  | _ => 0
  end.

(** [run] has not entered its loop, the device is not held and the
    slot is empty. *)
Definition gave_nothing
    (s : CameraThread (Frame := Frame) * Pc (Frame := Frame)) : Prop :=
  holds_device (fst s) = false
  /\ items (frame_queue (fst s)) = []
  /\ match snd s with
     | AtOpen _ | AtCheck | AtFinally | Exited => True
     | _ => False
     end.

End WithFrame.

End Unavailable.

(** ** The model list of [PillDetectorApp]

    [self.models] is a [dict] from display names to paths, kept in
    insertion order.  The loaded model is represented by the path it was
    loaded from.  What the dialogs return is an argument of the method:
    [None] or an empty string when the user cancels. *)

Module Registry.

Import PyStr.

Definition str_eqb (a b : str) : bool :=
  if list_eq_dec N.eq_dec a b then true else false.

Definition dict := list (str * str).

(** [d.get(k)] *)
Fixpoint get (k : str) (d : dict) : option str :=
  match d with
  | [] => None
  | (k', v) :: r => if str_eqb k k' then Some v else get k r
  end.

(** [k in d] *)
Definition contains (k : str) (d : dict) : bool :=
  match get k d with Some _ => true | None => false end.

(** [d[k] = v] *)
Fixpoint setitem (k v : str) (d : dict) : dict :=
  match d with
  | [] => [(k, v)]
  | (k', v') :: r =>
      if str_eqb k k' then (k', v) :: r else (k', v') :: setitem k v r
  end.

(** [del d[k]], for a key that is present. *)
Fixpoint remove (k : str) (d : dict) : dict :=
  match d with
  | [] => []
  | (k', v) :: r => if str_eqb k k' then r else (k', v) :: remove k r
  end.

Definition keys (d : dict) : list str := map fst d.

(** [s.endswith(suffix)] *)
Definition endswith (s suffix : str) : bool :=
  str_eqb (skipn (List.length s - List.length suffix) s) suffix.

Record ModelList := mkModels {
  models : dict;
  current_model : option str;
  current_model_name : str
}.

(** [_import_encrypted_model()] and [_import_plain_model()], which
    differ in their messages only. *)
Definition _import_model (file_path : str) (model_name : option str)
    (overwrite : bool) (m : ModelList) : ModelList :=
  if negb (truthy file_path) then m
  else
    match model_name with
    | None => m
    | Some name =>
        if negb (truthy name) then m
        else if contains name (models m) && negb overwrite then m
        else mkModels (setitem name file_path (models m))
                      (current_model m) (current_model_name m)
    end.

(** [_rename_model()]; [selection] is the name selected in the list
    box.  A [KeyError] leaves the object as it was. *)
Definition _rename_model (selection : option str) (new_name : option str)
    (m : ModelList) : ModelList :=
  match selection with
  | None => m
  | Some old_name =>
      match new_name with
      | None => m
      | Some name =>
          if truthy name && negb (str_eqb name old_name) then
            if contains name (models m) then m
            else
              match get old_name (models m) with
              | None => m
              | Some path =>
                  mkModels
                    (setitem name path (remove old_name (models m)))
                    (current_model m)
                    (if str_eqb (current_model_name m) old_name
                     then name else current_model_name m)
              end
          else m
      end
  end.

(** [_delete_model()] *)
Definition _delete_model (selection : option str) (confirm : bool)
    (m : ModelList) : ModelList :=
  match selection with
  | None => m
  | Some model_name =>
      if negb confirm then m
      else
        match get model_name (models m) with
        | None => m
        | Some _ =>
            let d := remove model_name (models m) in
            if str_eqb (current_model_name m) model_name
            then mkModels d None []
            else mkModels d (current_model m) (current_model_name m)
        end
  end.

Section WithFiles.

(** [hashlib.md5], and the path of the temporary file for a name. *)
Variable md5 : ModelFile.bytes -> ModelFile.bytes.
Variable temp_path : str -> str.

(** [_use_selected_model()]: [rp_file] is the content of the file at
    the selected path, [writable] tells whether the temporary file can
    be written, [yolo_ok] whether [YOLO(model_path)] returns. *)
Definition _use_selected_model (selection : option str)
    (rp_file : option ModelFile.bytes) (writable yolo_ok : bool)
    (m : ModelList) : ModelList :=
  match selection with
  | None => m
  | Some model_name =>
      match get model_name (models m) with
      | None => m
      | Some model_path =>
          if endswith model_path (of_string ".rp") then
            if negb (fst (ModelFile.decrypt_model md5 rp_file writable))
            then m
            else if yolo_ok
                 then mkModels (models m) (Some (temp_path model_name))
                        model_name
                 else m
          else if yolo_ok
               then mkModels (models m) (Some model_path) model_name
               else m
      end
  end.

(** The calls that change the model list. *)
Inductive Op :=
| Import (file_path : str) (model_name : option str) (overwrite : bool)
| Rename (selection new_name : option str)
| Delete (selection : option str) (confirm : bool)
| Use (selection : option str) (rp_file : option ModelFile.bytes)
      (writable yolo_ok : bool).

Definition exec_op (m : ModelList) (o : Op) : ModelList :=
  match o with
  | Import f n w => _import_model f n w m
  | Rename s n => _rename_model s n m
  | Delete s c => _delete_model s c m
  | Use s f w y => _use_selected_model s f w y m
  end.

Definition exec (ops : list Op) (m : ModelList) : ModelList :=
  fold_left exec_op ops m.

End WithFiles.

(** The model shown as loaded is an entry of the list, or no model is
    loaded. *)
Definition current_is_listed (m : ModelList) : Prop :=
  current_model m = None
  \/ contains (current_model_name m) (models m) = true.

End Registry.

(** ** Observing the statistics along the processing loop *)

Module Statistics.

Import Monitor App.

(** The count that a tick which got a frame passes to [update_stats],
    if it calls it: the number of boxes when detection is on and the
    model returned a result, 0 when detection is off. *)
Definition passed (a : PillDetectorApp) (results : option Z) : option Z :=
  if detecting a && current_model a then results else Some 0.

(** The counts passed along a sequence of ticks, each given by what it
    reads and what the model returns. *)
Definition passed_counts (a : PillDetectorApp)
    (l : list (Reading * option Z)) : list Z :=
  flat_map (fun t => match passed a (snd t) with
                     | Some c => [c]
                     | None => []
                     end) l.

Section WithRandom.

Variable randint : nat -> Z.

(** The loop after a sequence of ticks that got a frame. *)
Definition ticks (l : list (Reading * option Z)) (a : PillDetectorApp)
  : PillDetectorApp :=
  fold_left (fun a t => _update_video randint (fst t) (snd t) a) l a.

End WithRandom.



End Statistics.

(** * Properties of the monitor *)

Section MonitorFacts.

Import Monitor Protocol.

Variable randint : nat -> Z.

(** Opens a state into its fields and splits the goal along the
    branches of [update_stats]. *)
Ltac open_state w :=
  let ct := fresh "ct" in let mpc := fresh "mpc" in
  let mpf := fresh "mpf" in let fc := fresh "fc" in
  let cpc := fresh "cpc" in let tp := fresh "tp" in
  let tr := fresh "tr" in let tst := fresh "tst" in
  let tss := fresh "tss" in let sms := fresh "sms" in
  let nt := fresh "nt" in let ts := fresh "ts" in
  let k := fresh "k" in
  destruct w as [[ct mpc mpf fc cpc tp tr tst tss sms nt ts] k].

Ltac branches :=
  unfold tick, update_stats, mark_notification_triggered, with_self;
  cbn -[Z.add Z.ltb Z.eqb Qle_bool Qminus inject_Z];
  repeat match goal with
         | |- context [if ?c then _ else _] =>
             lazymatch c with
             | context [if _ then _ else _] => fail
             | _ => idtac
             end;
             let E := fresh "E" in destruct c eqn:E;
             cbn -[Z.add Z.ltb Z.eqb Qle_bool Qminus inject_Z] in *
         end.

Ltac zprops :=
  repeat match goal with
         | H : (_ <? _) = true |- _ => apply Z.ltb_lt in H
         | H : (_ <? _) = false |- _ => apply Z.ltb_ge in H
         | H : (_ =? _) = true |- _ => apply Z.eqb_eq in H
         | H : (_ =? _) = false |- _ => apply Z.eqb_neq in H
         end.

Lemma update_stats_keeps_target now c w :
  target_pills (self (snd (update_stats randint now c w)))
  = target_pills (self w).
Proof. open_state w. branches; reflexivity. Qed.

Lemma tick_keeps_target w o :
  target_pills (self (snd (tick randint w o))) = target_pills (self w).
Proof. open_state w. destruct o. branches; reflexivity. Qed.

Lemma run_app w xs ys :
  run randint w (xs ++ ys) = run randint (run randint w xs) ys.
Proof. unfold run. apply fold_left_app. Qed.

Lemma run_snoc w xs o :
  run randint w (xs ++ [o]) = snd (tick randint (run randint w xs) o).
Proof. rewrite run_app. reflexivity. Qed.

Lemma run_keeps_target os : forall w,
  target_pills (self (run randint w os)) = target_pills (self w).
Proof.
  induction os as [|o os IH]; intro w; [reflexivity|].
  change (run randint w (o :: os))
    with (run randint (snd (tick randint w o)) os).
  rewrite IH. apply tick_keeps_target.
Qed.

(** What a [True] answer tells about the state it was computed from. *)
Lemma update_stats_true now c w :
  fst (update_stats randint now c w) = true ->
  0 < target_pills (self w)
  /\ c = target_pills (self w)
  /\ target_reached (self w) = true
  /\ success_message_shown (self w) = false
  /\ notification_triggered (self w) = false
  /\ (inject_Z (target_stable_seconds (self w))
      <= now - target_start_time (self w))%Q.
Proof.
  open_state w. branches; intro H; try discriminate H.
  all: destruct tr, sms, nt; try discriminate.
  all: zprops; repeat split; try assumption.
  all: apply Qle_bool_iff; assumption.
Qed.

(** The three ways a tick treats an enabled monitor. *)
Lemma tick_diverges w o :
  0 < target_pills (self w) ->
  obs_count o <> target_pills (self w) ->
  fst (tick randint w o) = false
  /\ target_reached (self (snd (tick randint w o))) = false
  /\ rng_calls (snd (tick randint w o)) = rng_calls w.
Proof.
  open_state w. destruct o as [t c st]. cbn. intros Hpos Hne.
  branches; zprops; repeat split; try reflexivity; lia.
Qed.

Lemma tick_begins w o :
  0 < target_pills (self w) ->
  obs_count o = target_pills (self w) ->
  target_reached (self w) = false ->
  let w' := snd (tick randint w o) in
  fst (tick randint w o) = false
  /\ target_reached (self w') = true
  /\ target_start_time (self w') = obs_time o
  /\ target_stable_seconds (self w') = randint (rng_calls w)
  /\ success_message_shown (self w') = false
  /\ rng_calls w' = S (rng_calls w).
Proof.
  open_state w. destruct o as [t c st]. cbn. intros Hpos Heq Hr. subst.
  branches; zprops; repeat split; try reflexivity; try discriminate; lia.
Qed.

Lemma tick_holds w o :
  0 < target_pills (self w) ->
  obs_count o = target_pills (self w) ->
  target_reached (self w) = true ->
  let w' := snd (tick randint w o) in
  target_reached (self w') = true
  /\ target_start_time (self w') = target_start_time (self w)
  /\ target_stable_seconds (self w') = target_stable_seconds (self w)
  /\ rng_calls w' = rng_calls w
  /\ (success_message_shown (self w) = true ->
      fst (tick randint w o) = false
      /\ success_message_shown (self w') = true)
  /\ (fst (tick randint w o) = true ->
      success_message_shown (self w') = true).
Proof.
  open_state w. destruct o as [t c st]. cbn. intros Hpos Heq Hr. subst.
  branches; zprops; repeat split; try reflexivity; try discriminate;
    try (intros; assumption); try lia.
  all: try (intro Hs; subst; discriminate).
  all: subst; discriminate.
Qed.

Lemma tick_answer w o :
  fst (tick randint w o)
  = fst (update_stats randint (obs_time o) (obs_count o) w).
Proof.
  unfold tick.
  destruct (update_stats randint (obs_time o) (obs_count o) w) as [[|] w'];
    reflexivity.
Qed.

(** Once the notification of an episode is recorded, the ticks of the
    same run of equal counts stay silent. *)
Lemma run_silent T mid : forall w,
  0 < T ->
  target_pills (self w) = T ->
  target_reached (self w) = true ->
  success_message_shown (self w) = true ->
  Forall (fun o => obs_count o = T) mid ->
  target_reached (self (run randint w mid)) = true
  /\ success_message_shown (self (run randint w mid)) = true.
Proof.
  induction mid as [|o mid IH]; intros w Hpos HT Hr Hs Hall.
  - split; assumption.
  - inversion Hall as [|? ? Ho Hmid]; subst.
    change (run randint w (o :: mid))
      with (run randint (snd (tick randint w o)) mid).
    destruct (tick_holds w o) as (Hr' & _ & _ & _ & Hshown & _);
      try assumption; try lia.
    destruct (Hshown Hs) as [_ Hs'].
    apply IH; try assumption.
    rewrite tick_keeps_target. reflexivity.
Qed.

(** A run of equal counts can begin after [pre]: the monitor is then
    not in an episode. *)
Lemma run_at_begin T w pre :
  0 < T ->
  target_pills (self w) = T ->
  target_reached (self w) = false ->
  run_may_begin T pre ->
  target_reached (self (run randint w pre)) = false.
Proof.
  intros Hpos HT Hr [-> | (p & x & -> & Hx)]; [exact Hr|].
  rewrite run_snoc.
  apply tick_diverges; rewrite run_keeps_target; lia.
Qed.

(** The episode state during a run of equal counts that began with the
    observation [s]: the reach time is the time of [s], the settle
    duration is the one drawn at [s], and no further draw was made. *)
Lemma episode T w pre s rn :
  0 < T ->
  target_pills (self w) = T ->
  target_reached (self w) = false ->
  run_may_begin T pre ->
  Forall (fun o => obs_count o = T) (s :: rn) ->
  let k := rng_calls (run randint w pre) in
  let w' := run randint w (pre ++ s :: rn) in
  target_reached (self w') = true
  /\ target_start_time (self w') = obs_time s
  /\ target_stable_seconds (self w') = randint k
  /\ rng_calls w' = S k.
Proof.
  intros Hpos HT Hr Hpre Hall. cbv zeta.
  induction rn as [|o rn IH] using rev_ind.
  - rewrite run_snoc.
    inversion Hall as [|? ? Hs _]; subst.
    destruct (tick_begins (run randint w pre) s)
      as (_ & H1 & H2 & H3 & _ & H4).
    + rewrite run_keeps_target. exact Hpos.
    + rewrite run_keeps_target. exact Hs.
    + apply (run_at_begin (target_pills (self w))); auto.
    + auto.
  - assert (Hall' : Forall (fun o => obs_count o = T) (s :: rn)).
    { inversion Hall as [|? ? Hs Hrn]; subst. constructor; [exact Hs|].
      apply Forall_app in Hrn. apply Hrn. }
    assert (Ho : obs_count o = T).
    { inversion Hall as [|? ? _ Hrn]; subst.
      apply Forall_app in Hrn. destruct Hrn as [_ Hrn].
      inversion Hrn; assumption. }
    destruct (IH Hall') as (H1 & H2 & H3 & H4).
    change (pre ++ s :: rn ++ [o]) with (pre ++ (s :: rn) ++ [o]).
    rewrite app_assoc, run_snoc.
    destruct (tick_holds (run randint w (pre ++ s :: rn)) o)
      as (G1 & G2 & G3 & G4 & _).
    + rewrite run_keeps_target. lia.
    + rewrite run_keeps_target. lia.
    + exact H1.
    + repeat split; congruence.
Qed.

(** Every sequence of observations ends in a run of counts equal to
    [T], possibly empty, that begins where a run can begin. *)
Lemma trailing_run T (pre : list Obs) :
  exists p rn,
    pre = p ++ rn
    /\ Forall (fun o => obs_count o = T) rn
    /\ run_may_begin T p.
Proof.
  induction pre as [|x pre IH] using rev_ind.
  - exists [], []. repeat split; [constructor | left; reflexivity].
  - destruct (Z.eq_dec (obs_count x) T) as [Hx | Hx].
    + destruct IH as (p & rn & -> & Hrn & Hp).
      exists p, (rn ++ [x]). rewrite app_assoc. repeat split; auto.
      apply Forall_app. split; [exact Hrn | constructor; auto].
    + exists (pre ++ [x]), []. rewrite app_nil_r.
      repeat split; [constructor | right; exists pre, x; auto].
Qed.

(** The ticks of the code follow the phases of the design. *)
Lemma tick_refines_phase T w ph o :
  0 < T ->
  in_phase T w ph ->
  fst (tick randint w o)
  = fst (phase_step T (randint (rng_calls w)) ph o)
  /\ in_phase T (snd (tick randint w o))
       (snd (phase_step T (randint (rng_calls w)) ph o)).
Proof.
  intros Hpos [HT Hph]. unfold phase_step, in_phase.
  rewrite tick_keeps_target.
  destruct (obs_count o =? T) eqn:Ec.
  - apply Z.eqb_eq in Ec.
    destruct ph as [|start settle|].
    + destruct (tick_begins w o) as (A & R & St & Sb & Sh & _);
        try lia; try assumption.
      cbn. repeat split; try assumption.
      revert A R St Sb Sh. open_state w. destruct o as [t c st].
      cbn in HT, Hph, Ec. subst. branches; zprops; try reflexivity; try lia;
        discriminate.
    + destruct Hph as (Hr & Hs & Hn & Hst & Hsb).
      destruct (tick_holds w o) as (R & St & Sb & _ & _ & F);
        try lia; try assumption.
      rewrite tick_answer in *.
      rewrite <- Hst, <- Hsb.
      destruct (Qle_bool (inject_Z (target_stable_seconds (self w)))
                  (obs_time o - target_start_time (self w))) eqn:Eq.
      * assert (A : fst (update_stats randint (obs_time o) (obs_count o) w)
                    = true).
        { revert Eq. clear - Hpos HT Ec Hr Hs Hn. open_state w.
          destruct o as [t c st]. cbn in *. subst.
          branches; zprops; try reflexivity; try lia; congruence. }
        cbn. repeat split; auto.
      * assert (A : fst (update_stats randint (obs_time o) (obs_count o) w)
                    = false).
        { revert Eq. clear - Hpos HT Ec Hr Hs Hn. open_state w.
          destruct o as [t c st]. cbn in *. subst.
          branches; zprops; try reflexivity; try lia; congruence. }
        cbn. repeat split; auto.
        all: revert A; clear - Hpos HT Ec Hr Hs Hn; open_state w;
          destruct o as [t c st]; cbn in *; subst;
          branches; zprops; try reflexivity; try lia; congruence.
    + destruct Hph as (Hr & Hs).
      destruct (tick_holds w o) as (R & _ & _ & _ & Sil & _);
        try lia; try assumption.
      destruct (Sil Hs) as [A Sh]. cbn. repeat split; assumption.
  - apply Z.eqb_neq in Ec.
    destruct (tick_diverges w o) as (A & R & _); try lia.
    cbn. repeat split; assumption.
Qed.

(** C1.  Let the monitor be driven as the processing loop drives it,
    every [True] answer of [update_stats] being followed at once by
    [mark_notification_triggered], with a fixed target [T > 0], from the
    state [set_target_pills] leaves, and for any observation times.
    Then:
    - two [True] answers of [update_stats] are separated by an
      observation whose count differs from [T], so a maximal run of
      counts equal to [T] gets at most one;
    - a [True] answer comes only inside such a run, strictly after its
      first observation [s], and when the settle duration drawn at [s]
      has elapsed since the time of [s];
    - inside the run, before that duration has elapsed, the answer is
      [False]. *)
Theorem update_stats_fires_once_after_settle (T : Z) (w0 : World) :
  0 < T ->
  let w := set_target_pills T w0 in
  let equal o := obs_count o = T in
  (forall pre o1 mid o2,
      fires randint w pre o1 = true ->
      fires randint w (pre ++ o1 :: mid) o2 = true ->
      Exists (fun o => ~ equal o) mid)
  /\ (forall pre o,
        fires randint w pre o = true ->
        exists p s rn,
          pre = p ++ s :: rn
          /\ run_may_begin T p
          /\ Forall equal (s :: rn ++ [o])
          /\ target_stable_seconds (self (run randint w (p ++ [s])))
             = randint (rng_calls (run randint w p))
          /\ (inject_Z (randint (rng_calls (run randint w p)))
              <= obs_time o - obs_time s)%Q)
  /\ (forall p s rn o,
        run_may_begin T p ->
        Forall equal (s :: rn) ->
        (obs_time o - obs_time s
         < inject_Z (randint (rng_calls (run randint w p))))%Q ->
        fires randint w (p ++ s :: rn) o = false).
Proof.
  intros Hpos w equal.
  assert (HT : target_pills (self w) = T) by reflexivity.
  assert (Hr : target_reached (self w) = false) by reflexivity.
  split; [|split].
  - intros pre o1 mid o2 H1 H2.
    destruct (Forall_Exists_dec equal
                (fun o => Z.eq_dec (obs_count o) T) mid) as [Hall | Hex];
      [exfalso | exact Hex].
    unfold fires in H1, H2.
    destruct (update_stats_true _ _ _ H1) as (_ & Hc & Hreached & _).
    rewrite run_keeps_target in Hc.
    change (pre ++ o1 :: mid) with (pre ++ [o1] ++ mid) in H2.
    rewrite app_assoc, run_app, run_snoc in H2.
    destruct (tick_holds (run randint w pre) o1)
      as (Hr1 & _ & _ & _ & _ & Hfired);
      try (rewrite run_keeps_target; lia); try assumption.
    rewrite tick_answer in Hfired. specialize (Hfired H1).
    destruct (run_silent T mid (snd (tick randint (run randint w pre) o1)))
      as [_ Hshown]; try assumption.
    { rewrite tick_keeps_target, run_keeps_target. exact HT. }
    destruct (update_stats_true _ _ _ H2) as (_ & _ & _ & Hs & _).
    congruence.
  - intros pre o Hf. unfold fires in Hf.
    destruct (update_stats_true _ _ _ Hf)
      as (_ & Hc & Hreached & _ & _ & Hle).
    rewrite run_keeps_target in Hc.
    destruct (trailing_run T pre) as (p & rn & -> & Hrn & Hp).
    destruct rn as [|s rn].
    + rewrite app_nil_r in Hreached.
      rewrite (run_at_begin T w p) in Hreached by assumption.
      discriminate.
    + destruct (episode T w p s rn Hpos HT Hr Hp Hrn)
        as (_ & Hstart & Hstable & _).
      destruct (episode T w p s [] Hpos HT Hr Hp) as (_ & _ & Hs1 & _).
      { constructor; [exact (Forall_inv Hrn) | constructor]. }
      exists p, s, rn. repeat split; try assumption.
      * constructor; [exact (Forall_inv Hrn)|].
        apply Forall_app. split; [exact (Forall_inv_tail Hrn)|].
        constructor; [unfold equal; congruence | constructor].
      * rewrite <- Hstable, <- Hstart. exact Hle.
  - intros p s rn o Hp Hrn Hlt.
    destruct (fires randint w (p ++ s :: rn) o) eqn:Hf; [exfalso|reflexivity].
    unfold fires in Hf.
    destruct (update_stats_true _ _ _ Hf) as (_ & _ & _ & _ & _ & Hle).
    destruct (episode T w p s rn Hpos HT Hr Hp Hrn)
      as (_ & Hstart & Hstable & _).
    rewrite Hstable, Hstart in Hle.
    apply Qle_not_lt in Hle. contradiction.
Qed.

(** The random source is only ever read forward: the draw of a new
    episode is one that no earlier episode has seen. *)
Lemma tick_draws_forward w o :
  (rng_calls w <= rng_calls (snd (tick randint w o)))%nat.
Proof. open_state w. destruct o as [t c st]. branches; lia. Qed.

Lemma run_draws_forward os : forall w,
  (rng_calls w <= rng_calls (run randint w os))%nat.
Proof.
  induction os as [|o os IH]; intro w; [apply Nat.le_refl|].
  change (run randint w (o :: os))
    with (run randint (snd (tick randint w o)) os).
  eapply Nat.le_trans; [apply tick_draws_forward | apply IH].
Qed.

(** C4, as the code has it.  For a target [T > 0]:
    - an observation whose count differs from [T] answers [False] and
      resets the flags of the episode and the reach time, whether or
      not the settle duration has elapsed; the stored settle duration
      keeps its value and no draw is made;
    - when a run of counts equal to [T] begins at [s] after that, the
      settle duration is drawn at [s], by a call of the random source
      that was not made before, and during the whole run the stored
      duration is that draw and no other draw is made. *)
Theorem divergence_resets_and_equality_redraws (T : Z) (w0 : World) :
  0 < T ->
  let w := set_target_pills T w0 in
  let equal o := obs_count o = T in
  (forall v now c,
      target_pills (self v) = T ->
      c <> T ->
      let v' := snd (update_stats randint now c v) in
      fst (update_stats randint now c v) = false
      /\ flags_reset v'
      /\ (target_start_time (self v') == 0)%Q
      /\ target_stable_seconds (self v') = target_stable_seconds (self v)
      /\ rng_calls v' = rng_calls v)
  /\ (forall pre s rn,
        run_may_begin T pre ->
        Forall equal (s :: rn) ->
        let k := rng_calls (run randint w pre) in
        let w' := run randint w (pre ++ s :: rn) in
        target_reached (self w') = true
        /\ target_start_time (self w') = obs_time s
        /\ target_stable_seconds (self w') = randint k
        /\ rng_calls w' = S k).
Proof.
  intros Hpos w equal. split.
  - intros v now c HT Hc. unfold flags_reset.
    open_state v. cbn in HT. subst.
    branches; zprops; repeat split; try reflexivity; lia.
  - intros pre s rn Hpre Hall.
    apply (episode T w pre s rn); auto.
Qed.

Lemma update_stats_disabled now c w :
  target_pills (self w) <= 0 ->
  fst (update_stats randint now c w) = false.
Proof.
  open_state w. cbn. intro H. branches; zprops; try reflexivity; lia.
Qed.

(** C5, as the code has it.  [set_target_pills n] stores the target and
    clears the reached flag, the two notification flags and the
    recorded date; it leaves the reach time, the settle duration and
    the random source as they are.  After [set_target_pills 0] every
    [update_stats] answers [False], whatever the counts and times. *)
Theorem set_target_pills_clears_flags (n : Z) (w : World) :
  let w' := set_target_pills n w in
  target_pills (self w') = n
  /\ flags_reset w'
  /\ target_start_time (self w') = target_start_time (self w)
  /\ target_stable_seconds (self w') = target_stable_seconds (self w)
  /\ rng_calls w' = rng_calls w
  /\ (forall pre o, fires randint (set_target_pills 0 w) pre o = false).
Proof.
  cbv zeta. unfold flags_reset. repeat split.
  intros pre o. unfold fires. apply update_stats_disabled.
  rewrite run_keeps_target. cbn. lia.
Qed.

(** The invariant of the protocol, with what is known while a call of
    [mark_notification_triggered] is due. *)
Lemma reachable_invariant w pending :
  reachable randint w pending ->
  (target_reached (self w) = true -> start_time_set w)
  /\ (notification_triggered (self w) = true ->
      target_reached (self w) = true)
  /\ (pending = true -> target_reached (self w) = true).
Proof.
  unfold start_time_set.
  induction 1 as [caption | w count _ IH | w now c _ IH Hnow
                 | w stamp _ IH | w _ IH].
  - cbn. repeat split; discriminate.
  - cbn. repeat split; discriminate.
  - destruct IH as (I1 & I2 & _). revert I1 I2.
    open_state w. cbn.
    branches; intros I1 I2; repeat split; intro H;
      try discriminate; auto.
    all: try (destruct tr; cbn in *; congruence).
    all: intro Hz; rewrite Hz in Hnow; exact (Qlt_irrefl _ Hnow).
  - destruct IH as (I1 & _ & I3). cbn in *.
    repeat split; auto; discriminate.
  - cbn. repeat split; discriminate.
Qed.

(** C9.  In every state the monitor reaches under the protocol, a set
    reached flag comes with a set reach time, and a set
    notification flag comes with a set reached flag. *)
Theorem reachable_flags_consistent w pending :
  reachable randint w pending ->
  (target_reached (self w) = true -> start_time_set w)
  /\ (notification_triggered (self w) = true ->
      target_reached (self w) = true).
Proof.
  intro H. destruct (reachable_invariant w pending H) as (I1 & I2 & _).
  split; assumption.
Qed.

End MonitorFacts.

(** ** The settle scenario *)

Section Scenario.

Import Monitor Protocol.

(** With a constant random source the answers of the code are those of
    the phases. *)
Lemma answers_follow_phases (d T : Z) (os : list Obs) :
  0 < T ->
  forall w ph,
    in_phase T w ph ->
    answers (fun _ => d) w os = phase_answers T d ph os.
Proof.
  intro Hpos. induction os as [|o os IH]; intros w ph Hph; [reflexivity|].
  destruct (tick_refines_phase (fun _ => d) T w ph o Hpos Hph) as [A P].
  cbn [answers phase_answers]. rewrite A. f_equal. apply IH. exact P.
Qed.

Lemma settle_not_elapsed (t : Q) :
  Qle_bool (inject_Z 2) (t + 1 - t) = false.
Proof.
  apply not_true_is_false. intro H. apply Qle_bool_iff in H.
  assert (E : (inject_Z 2 == 2)%Q) by reflexivity. rewrite E in H. lra.
Qed.

Lemma settle_elapsed (t : Q) :
  Qle_bool (inject_Z 2) (t + 1 + 1 - t) = true.
Proof.
  apply Qle_bool_iff.
  assert (E : (inject_Z 2 == 2)%Q) by reflexivity. rewrite E. lra.
Qed.

(** C2, as the code has it.  Target 5, settle duration 2 seconds, the
    counts 5,5,5,4,5,5,5,5 sampled once per second from any instant
    [t0], in whatever state the monitor was before the target was set:
    [update_stats] answers [True] at the third frame, where the first
    run has lasted 2 seconds, and again at the seventh, where the
    second run has; at the other frames it answers [False]. *)
Theorem scenario_fires_at_third_and_seventh (w0 : World) (t0 : Q) :
  scenario_answers w0 t0
  = [false; false; true; false; false; false; true; false].
Proof.
  unfold scenario_answers, always_two.
  rewrite (answers_follow_phases 2 5 _ ltac:(lia) _ Idle)
    by (split; reflexivity).
  unfold scenario_counts.
  cbn [sampled phase_answers phase_step obs_count obs_time fst snd Z.eqb
       Pos.eqb].
  rewrite settle_not_elapsed. cbn [fst snd].
  rewrite settle_elapsed. cbn [fst snd].
  rewrite settle_not_elapsed. cbn [fst snd].
  rewrite settle_elapsed. cbn [fst snd].
  reflexivity.
Qed.

(** The scenario as C2 words it, at the instant 0 and on a fresh
    monitor: the seventh frame fires and the third does not. *)
Lemma scenario_third_frame_fires :
  ~ (nth 6 (scenario_answers (init []) 0) false = true
     /\ nth 2 (scenario_answers (init []) 0) false = false).
Proof. vm_compute. intros [_ H]. discriminate H. Qed.

End Scenario.

(** ** The monitor on concrete runs *)

Section MonitorExamples.

Import Monitor Protocol.

(** C1 at target 5 with 2-second settle durations: the third of three
    equal counts, one second apart, fires, and the theorem places it in
    a run whose settle duration has elapsed. *)
Lemma update_stats_fires_once_after_settle_witness :
  0 < 5
  /\ fires always_two (set_target_pills 5 (init []))
       [mkObs 0 5 []; mkObs 1 5 []] (mkObs 2 5 []) = true
  /\ exists p s rn,
       [mkObs 0 5 []; mkObs 1 5 []] = p ++ s :: rn
       /\ run_may_begin 5 p
       /\ Forall (fun o => obs_count o = 5) (s :: rn ++ [mkObs 2 5 []])
       /\ target_stable_seconds
            (self (run always_two (set_target_pills 5 (init []))
                     (p ++ [s])))
          = always_two
              (rng_calls (run always_two (set_target_pills 5 (init [])) p))
       /\ (inject_Z
             (always_two
                (rng_calls
                   (run always_two (set_target_pills 5 (init [])) p)))
           <= obs_time (mkObs 2 5 []) - obs_time s)%Q.
Proof.
  assert (Hpos : 0 < 5) by lia.
  assert (Hf : fires always_two (set_target_pills 5 (init []))
                 [mkObs 0 5 []; mkObs 1 5 []] (mkObs 2 5 []) = true)
    by (vm_compute; reflexivity).
  split; [exact Hpos|]. split; [exact Hf|].
  exact (proj1 (proj2
           (update_stats_fires_once_after_settle always_two 5 (init [])
              Hpos))
           [mkObs 0 5 []; mkObs 1 5 []] (mkObs 2 5 []) Hf).
Defined.

(** C4 as worded, on a fresh monitor with target 5: after the counts 5
    and 4 the flags are reset but the timers are not both back at
    their initial values, the settle duration still being 2. *)
Lemma divergence_keeps_settle_duration :
  let w := run always_two (set_target_pills 5 (init []))
             [mkObs 0 5 []; mkObs 1 4 []] in
  ~ (flags_reset w /\ timers_reset w).
Proof. vm_compute. intros [_ [_ H]]. discriminate H. Qed.

(** C4 at target 5: a run that begins after a count of 4. *)
Lemma divergence_resets_and_equality_redraws_witness :
  0 < 5
  /\ run_may_begin 5 [mkObs 0 4 []]
  /\ Forall (fun o => obs_count o = 5) [mkObs 1 5 []; mkObs 2 5 []]
  /\ target_stable_seconds
       (self (run always_two (set_target_pills 5 (init []))
                ([mkObs 0 4 []] ++ [mkObs 1 5 []; mkObs 2 5 []])))
     = always_two
         (rng_calls
            (run always_two (set_target_pills 5 (init []))
               [mkObs 0 4 []])).
Proof.
  assert (Hpos : 0 < 5) by lia.
  assert (Hb : run_may_begin 5 [mkObs 0 4 []]).
  { right. exists [], (mkObs 0 4 []). split; [reflexivity|]. cbn. lia. }
  assert (Hall : Forall (fun o => obs_count o = 5)
                   [mkObs 1 5 []; mkObs 2 5 []]).
  { repeat constructor. }
  split; [exact Hpos|]. split; [exact Hb|]. split; [exact Hall|].
  exact (proj1 (proj2 (proj2
           (proj2 (divergence_resets_and_equality_redraws always_two 5
                     (init []) Hpos)
              [mkObs 0 4 []] (mkObs 1 5 []) [mkObs 2 5 []] Hb Hall)))).
Defined.

(** C5 as worded, after an episode began at time 7 with a settle
    duration of 2: [set_target_pills] leaves both timers as they were. *)
Lemma set_target_pills_keeps_timers :
  let w := snd (update_stats always_two 7 5
                  (set_target_pills 5 (init []))) in
  ~ (flags_reset (set_target_pills 3 w)
     /\ timers_reset (set_target_pills 3 w)).
Proof. vm_compute. intros [_ [H _]]. discriminate H. Qed.

(** C9 on the state reached by setting the target 5 and observing the
    count 5 at time 1. *)
Lemma reachable_flags_consistent_witness :
  reachable always_two
    (snd (update_stats always_two 1 5 (set_target_pills 5 (init []))))
    (fst (update_stats always_two 1 5 (set_target_pills 5 (init []))))
  /\ start_time_set
       (snd (update_stats always_two 1 5 (set_target_pills 5 (init [])))).
Proof.
  assert (H : reachable always_two
                (snd (update_stats always_two 1 5
                        (set_target_pills 5 (init []))))
                (fst (update_stats always_two 1 5
                        (set_target_pills 5 (init []))))).
  { apply reach_update_stats; [|reflexivity].
    apply reach_set_target. apply reach_init. }
  split; [exact H|].
  exact (proj1 (reachable_flags_consistent always_two _ _ H) eq_refl).
Defined.

(** Without the acknowledgement the first part of C1 fails:
    [update_stats] alone answers [True] again at the next equal count. *)
Lemma update_stats_repeats_until_marked :
  let w := run always_two (set_target_pills 5 (init []))
             [mkObs 0 5 []] in
  let w' := snd (update_stats always_two 2 5 w) in
  fst (update_stats always_two 2 5 w) = true
  /\ fst (update_stats always_two 3 5 w') = true
  /\ fst (update_stats always_two 3 5
            (mark_notification_triggered [] w')) = false.
Proof. vm_compute. repeat split. Qed.

(** Without the protocol the second half of C9 fails: a
    [mark_notification_triggered] that follows no [True] answer sets
    the notification flag of a monitor that is not in an episode. *)
Lemma mark_out_of_protocol :
  let w := mark_notification_triggered [] (init []) in
  notification_triggered (self w) = true
  /\ target_reached (self w) = false.
Proof. split; reflexivity. Qed.

End MonitorExamples.

(** * Properties of the dispatcher *)

Section DispatcherFacts.

Import PyStr Audio Dispatch.

Lemma lstrip_empty t : lstrip t = [] <-> forallb is_space t = true.
Proof.
  induction t as [|c t IH]; cbn; [tauto|].
  destruct (is_space c); cbn; [exact IH|].
  split; discriminate.
Qed.

Lemma lstrip_head t c r : lstrip t = c :: r -> is_space c = false.
Proof.
  induction t as [|x t IH]; cbn; [discriminate|].
  destruct (is_space x) eqn:E; [exact IH|].
  intro H. injection H as -> _. exact E.
Qed.

(** [strip] leaves nothing exactly of the texts made of white space. *)
Lemma strip_empty t : strip t = [] <-> forallb is_space t = true.
Proof.
  unfold strip, rstrip. split.
  - intro H. apply lstrip_empty.
    destruct (lstrip t) as [|c r] eqn:E; [reflexivity|exfalso].
    apply lstrip_head in E.
    assert (H' : lstrip (rev (c :: r)) = []).
    { destruct (lstrip (rev (c :: r))); [reflexivity|].
      cbn in H. apply (f_equal (@List.length N)) in H.
      rewrite length_app in H. cbn in H. lia. }
    apply lstrip_empty in H'. rewrite forallb_forall in H'.
    specialize (H' c). rewrite H' in E; [discriminate|].
    apply in_rev. rewrite rev_involutive. left. reflexivity.
  - intro H. apply lstrip_empty in H. rewrite H. reflexivity.
Qed.

Lemma len_zero (t : str) : (len t =? 0) = true <-> t = [].
Proof.
  unfold len. destruct t; cbn; split; intro H; try reflexivity;
    discriminate H.
Qed.

Lemma blank_silent text : blank text = true <-> silent_text text.
Proof.
  destruct text as [t|]; cbn [blank silent_text]; [|tauto].
  rewrite <- strip_empty, <- len_zero.
  destruct t as [|c t]; cbn [truthy negb orb]; [|tauto].
  split; reflexivity.
Qed.

(** Without a sink [speak] does nothing, whatever the text. *)
Lemma speak_without_sink_is_noop ok text a :
  unavailable a = true -> speak ok text a = a.
Proof. intro H. unfold speak. rewrite H. reflexivity. Qed.

(** C10.  [speak] called with [None], with the empty string or with a
    string of white space only returns the dispatcher as it was: the
    queue, the speaking flag and the sink are untouched. *)
Theorem speak_silent_text_is_noop (ok : Outcome) (text : option str)
    (a : AudioManager) :
  silent_text text ->
  speak ok text a = a.
Proof.
  intro H. apply blank_silent in H. unfold speak.
  destruct (unavailable a); [reflexivity|]. rewrite H. reflexivity.
Qed.

Lemma subseq_refl {A} (l : list A) : subseq l l.
Proof. induction l; constructor; assumption. Qed.

Lemma subseq_snoc_take {A} (x : A) l1 l2 :
  subseq l1 l2 -> subseq (l1 ++ [x]) (l2 ++ [x]).
Proof.
  induction 1; cbn; try (constructor; assumption).
  apply subseq_refl.
Qed.

Lemma subseq_snoc_skip {A} (x : A) l1 l2 :
  subseq l1 l2 -> subseq l1 (l2 ++ [x]).
Proof.
  induction 1; cbn; try (constructor; assumption).
  constructor. constructor.
Qed.

Lemma enqueued_app ops1 ops2 :
  enqueued (ops1 ++ ops2) = enqueued ops1 ++ enqueued ops2.
Proof.
  induction ops1 as [|o ops1 IH]; [reflexivity|].
  destruct o as [[t|] ok | ok]; cbn [app enqueued]; try exact IH.
  destruct (blank (Some t)); [exact IH|]. cbn. f_equal. exact IH.
Qed.

Lemma exec_snoc ops o a : exec (ops ++ [o]) a = exec_op (exec ops a) o.
Proof. unfold exec. rewrite fold_left_app. reflexivity. Qed.

(** An idle dispatcher takes the head of its queue to the sink. *)
Lemma process_next_idle ok e x rest :
  _process_next_message ok (mkAudio (Some e) true (x :: rest) false)
  = match ok with
    | Returns => mkAudio (Some (say x e)) true rest true
    | SayRaises => mkAudio (Some e) true rest false
    | RunAndWaitRaises => mkAudio (Some (say x e)) true rest false
    end.
Proof. destruct ok; reflexivity. Qed.

Lemma all_snoc (p : Op -> bool) ops o :
  forallb p (ops ++ [o]) = forallb p ops && p o.
Proof. rewrite forallb_app. cbn. rewrite andb_true_r. reflexivity. Qed.

Lemma all_snoc_true (p : Op -> bool) ops o :
  forallb p (ops ++ [o]) = true -> forallb p ops = true /\ p o = true.
Proof. rewrite all_snoc. apply andb_prop. Qed.

(** Where no call raises, [say] does not and nothing does after it. *)
Lemma all_ok_returns ops :
  forallb op_ok ops = true ->
  forallb say_returns ops = true /\ forallb run_returns ops = true.
Proof.
  induction ops as [|o ops IH]; cbn; [auto|].
  intro H. apply andb_prop in H. destruct H as [Ho H].
  destruct (IH H) as [IH1 IH2]. rewrite IH1, IH2.
  unfold op_ok in Ho. unfold say_returns, run_returns.
  destruct (outcome o); try discriminate Ho. auto.
Qed.

(** The sink finishes its oldest utterance: the others are still the
    last it was given. *)
Lemma finished_grows (e : Engine) finished :
  said e = finished ++ playing e ->
  exists finished', said e = finished' ++ tl (playing e).
Proof.
  intro H. destruct (playing e) as [|u r].
  - exists finished. exact H.
  - exists (finished ++ [u]). rewrite <- app_assoc. exact H.
Qed.

Lemma at_most_one_tl (l : list str) :
  (List.length l <= 1)%nat -> tl l = [].
Proof. destruct l as [|u [|v r]]; cbn; intro H; try reflexivity. lia. Qed.

(** The head of a queue is taken by an idle dispatcher: bookkeeping
    for [dispatcher_inv]. *)
Lemma inv_after_take ops o ok e handed finished x rest :
  outcome o = ok ->
  enqueued (ops ++ [o]) = handed ++ x :: rest ->
  subseq (said e) handed ->
  (forallb say_returns ops = true -> said e = handed) ->
  said e = finished ++ playing e ->
  (forallb run_returns ops = true -> playing e = []) ->
  dispatcher_inv (ops ++ [o])
    (match ok with
     | Returns => mkAudio (Some (say x e)) true rest true
     | SayRaises => mkAudio (Some e) true rest false
     | RunAndWaitRaises => mkAudio (Some (say x e)) true rest false
     end).
Proof.
  intros Hok Henq Hsub Hall Hfin Hidle.
  assert (Henq' : enqueued (ops ++ [o]) = (handed ++ [x]) ++ rest).
  { rewrite <- app_assoc. exact Henq. }
  destruct ok.
  - exists (say x e), (handed ++ [x]), finished.
    cbn [engine initialized message_queue said playing say].
    repeat split; auto.
    + apply subseq_snoc_take. exact Hsub.
    + intro H. apply all_snoc_true in H. rewrite Hall by apply H.
      reflexivity.
    + rewrite Hfin, app_assoc. reflexivity.
    + apply all_snoc_true in H. cbn. rewrite Hidle by apply H.
      cbn. lia.
    + cbn. discriminate.
  - exists e, (handed ++ [x]), finished.
    cbn [engine initialized message_queue].
    repeat split; auto.
    + apply subseq_snoc_skip. exact Hsub.
    + intro H. apply all_snoc_true in H. destruct H as [_ H].
      unfold say_returns in H. rewrite Hok in H. discriminate H.
    + apply all_snoc_true in H. cbn. rewrite Hidle by apply H.
      cbn. lia.
    + apply all_snoc_true in H. cbn. intros _. apply Hidle, H.
  - exists (say x e), (handed ++ [x]), finished.
    cbn [engine initialized message_queue said playing say].
    repeat split; auto.
    + apply subseq_snoc_take. exact Hsub.
    + intro H. apply all_snoc_true in H. rewrite Hall by apply H.
      reflexivity.
    + rewrite Hfin, app_assoc. reflexivity.
    + apply all_snoc_true in H. destruct H as [_ H].
      unfold run_returns in H. rewrite Hok in H. discriminate H.
    + apply all_snoc_true in H. destruct H as [_ H].
      unfold run_returns in H. rewrite Hok in H. discriminate H.
Qed.

Lemma dispatcher_inv_step ops o a :
  dispatcher_inv ops a ->
  dispatcher_inv (ops ++ [o]) (exec_op a o).
Proof.
  intros (e & handed & finished & He & Hi & Henq & Hsub & Hall & Hfin
          & Hsf).
  destruct a as [eng ini q sp]. cbn in He, Hi, Henq. subst.
  unfold single_flight, sink in Hsf. cbn in Hsf.
  destruct o as [text ok | ok]; cbn [exec_op].
  - unfold speak. cbn [unavailable initialized engine negb orb].
    destruct (blank text) eqn:Eb.
    + exists e, handed, finished. cbn [engine initialized message_queue].
      repeat split; auto.
      * rewrite enqueued_app. cbn [enqueued].
        destruct text as [t|]; [rewrite Eb|]; rewrite app_nil_r;
          exact Henq.
      * intro H. apply all_snoc_true in H. apply Hall, H.
      * apply all_snoc_true in H. apply Hsf, H.
      * apply all_snoc_true in H. apply Hsf, H.
    + destruct text as [t|]; [|discriminate].
      assert (Henq' : enqueued (ops ++ [Speak (Some t) ok])
                      = handed ++ (q ++ [t])).
      { rewrite enqueued_app. cbn [enqueued]. rewrite Eb, Henq.
        rewrite <- app_assoc. reflexivity. }
      cbn [set_message_queue message_queue is_speaking engine
           initialized].
      destruct sp; cbn [negb].
      * exists e, handed, finished.
        cbn [engine initialized message_queue].
        repeat split; auto.
        -- intro H. apply all_snoc_true in H. apply Hall, H.
        -- apply all_snoc_true in H. apply Hsf, H.
        -- apply all_snoc_true in H. apply Hsf, H.
      * destruct (q ++ [t]) as [|x rest] eqn:Eq.
        { destruct q; discriminate. }
        unfold set_message_queue. cbn [engine initialized is_speaking].
        rewrite process_next_idle.
        apply inv_after_take with (handed := handed)
                                  (finished := finished); auto.
        intro H. apply Hsf; [exact H | reflexivity].
  - unfold utterance_finished, _on_speech_end.
    cbn [engine set_engine set_is_speaking message_queue initialized
         is_speaking].
    destruct (finished_grows e finished Hfin) as [finished' Hfin'].
    assert (Htl : forallb run_returns ops = true -> tl (playing e) = []).
    { intro H. apply at_most_one_tl, Hsf, H. }
    assert (Henq' : enqueued (ops ++ [Finished ok]) = handed ++ q).
    { rewrite enqueued_app. cbn [enqueued]. rewrite app_nil_r.
      exact Henq. }
    destruct q as [|x rest].
    + exists (mkEngine (said e) (tl (playing e))), handed, finished'.
      cbn [engine initialized message_queue said playing].
      repeat split; auto.
      * intro H. apply all_snoc_true in H. apply Hall, H.
      * apply all_snoc_true in H. cbn. rewrite Htl by apply H.
        cbn. lia.
      * apply all_snoc_true in H. cbn. intros _. apply Htl, H.
    + cbn [message_queue].
      change (_process_next_message ok _)
        with (_process_next_message ok
                (mkAudio (Some (mkEngine (said e) (tl (playing e))))
                   true (x :: rest) false)).
      rewrite process_next_idle.
      apply inv_after_take with (handed := handed)
                                (finished := finished'); auto.
Qed.

Lemma dispatcher_inv_fresh : dispatcher_inv [] fresh.
Proof.
  exists (mkEngine [] []), [], []. cbn. repeat split; auto. constructor.
Qed.

Lemma dispatcher_inv_exec ops : dispatcher_inv ops (exec ops fresh).
Proof.
  induction ops as [|o ops IH] using rev_ind.
  - apply dispatcher_inv_fresh.
  - rewrite exec_snoc. apply dispatcher_inv_step. exact IH.
Qed.

(** Completion events, one per queued message, take the whole queue
    to the sink in order. *)
Lemma drain_queue q : forall e sp,
  (List.length (playing e) <= 1)%nat ->
  let a' := exec (repeat (Finished Returns) (List.length q))
              (mkAudio (Some e) true q sp) in
  message_queue a' = []
  /\ said (sink a') = said e ++ q
  /\ (List.length (playing (sink a')) <= 1)%nat.
Proof.
  induction q as [|x rest IH]; intros e sp Hone; cbv zeta.
  - cbn. rewrite app_nil_r. auto.
  - assert (Htl : tl (playing e) = []) by (apply at_most_one_tl, Hone).
    cbn [List.length repeat].
    change (exec (Finished Returns :: ?l) ?a)
      with (exec l (exec_op a (Finished Returns))).
    cbn [exec_op]. unfold utterance_finished, _on_speech_end.
    cbn [engine set_engine set_is_speaking message_queue initialized
         is_speaking].
    change (_process_next_message Returns _)
      with (_process_next_message Returns
              (mkAudio (Some (mkEngine (said e) (tl (playing e))))
                 true (x :: rest) false)).
    rewrite process_next_idle.
    destruct (IH (say x (mkEngine (said e) (tl (playing e)))) true)
      as (Hq & Hs & Hp).
    { cbn. rewrite Htl. cbn. lia. }
    repeat split; try assumption.
    rewrite Hs. cbn. rewrite <- app_assoc. reflexivity.
Qed.


End DispatcherFacts.

(** ** The dispatcher on concrete runs *)

Section DispatcherExamples.

Import PyStr Audio Dispatch.

(** C10 on three texts: [None], the empty string, and a blank, a tab
    and a line feed. *)
Lemma speak_silent_text_is_noop_witness :
  silent_text (Some [32; 9; 10]%N)
  /\ speak Returns None fresh = fresh
  /\ speak Returns (Some []) fresh = fresh
  /\ speak Returns (Some [32; 9; 10]%N) fresh = fresh.
Proof.
  assert (H : silent_text (Some [32; 9; 10]%N)) by reflexivity.
  split; [exact H|]. split; [|split].
  - exact (speak_silent_text_is_noop Returns None fresh I).
  - exact (speak_silent_text_is_noop Returns (Some []) fresh eq_refl).
  - exact (speak_silent_text_is_noop Returns (Some [32; 9; 10]%N) fresh
             H).
Defined.

(** The same text enqueued twice is played twice, the second time
    after the first has finished. *)
Lemma same_text_twice (t : str) :
  blank (Some t) = false ->
  let a := exec [Speak (Some t) Returns; Speak (Some t) Returns] fresh in
  said (sink a) = [t]
  /\ message_queue a = [t]
  /\ said (sink (exec [Finished Returns] a)) = [t; t]
  /\ playing (sink (exec [Finished Returns] a)) = [t].
Proof.
  intro H. cbv zeta. unfold exec, fresh, Audio.init. cbn [fold_left exec_op].
  unfold speak. cbn [unavailable initialized engine andb negb orb].
  rewrite H. cbn. auto.
Qed.

(** Three texts enqueued while idle: the first plays at once, the
    others wait and follow it in order. *)
Lemma three_texts_in_order :
  let one := of_string "one" in
  let two := of_string "two" in
  let three := of_string "three" in
  let a := exec [Speak (Some one) Returns; Speak (Some two) Returns;
                 Speak (Some three) Returns] fresh in
  playing (sink a) = [one]
  /\ message_queue a = [two; three]
  /\ playing (sink (exec [Finished Returns] a)) = [two]
  /\ playing (sink (exec [Finished Returns; Finished Returns] a))
     = [three]
  /\ said (sink (exec (drain a) a)) = [one; two; three].
Proof. vm_compute. repeat split. Qed.


(** The same where the raise comes in the completion callback, which
    hands the second of three texts to the sink. *)
Lemma raise_in_callback_hands_over_two :
  let one := of_string "one" in
  let two := of_string "two" in
  let three := of_string "three" in
  let a := exec [Speak (Some one) Returns; Speak (Some two) Returns;
                 Finished RunAndWaitRaises;
                 Speak (Some three) Returns] fresh in
  playing (sink a) = [two; three]
  /\ said (sink a) = [one; two; three]
  /\ message_queue a = [].
Proof. vm_compute. repeat split. Qed.

End DispatcherExamples.

(** * Properties of the frame source *)

Section CameraFacts.

Import Camera Handoff.

Context {Frame : Type}.

Implicit Types (t : CameraThread (Frame := Frame)) (q : Queue (Frame := Frame)).

Lemma publish_slot (f : Frame) q :
  maxsize q = 1 ->
  (List.length (items q) <= 1)%nat ->
  publish f q = Some (mkQueue 1 [f]).
Proof.
  destruct q as [m [|x [|y r]]]; cbn; intros -> H; try reflexivity.
  lia.
Qed.

Lemma publish_all_slot (frames : list Frame) (latest : Frame) : forall q,
  maxsize q = 1 ->
  (List.length (items q) <= 1)%nat ->
  publish_all (frames ++ [latest]) q = Some (mkQueue 1 [latest]).
Proof.
  induction frames as [|f frames IH]; intros q Hm Hl; cbn [app publish_all].
  - rewrite publish_slot by assumption. reflexivity.
  - rewrite publish_slot by assumption. apply IH; cbn; auto.
Qed.

Lemma thread_inv_start index w h :
  thread_inv (start (init (Frame := Frame) index w h)).
Proof.
  unfold thread_inv, slot_ok. cbn. repeat split; auto; discriminate.
Qed.

(** Splits a goal along the tests a step of [run] makes. *)
Ltac step_cases :=
  repeat match goal with
         | |- context [if ?c then _ else _] =>
             lazymatch c with
             | context [if _ then _ else _] => fail
             | _ => idtac
             end;
             destruct c eqn:?; cbn in *
         | |- context [match ?x with _ => _ end] =>
             lazymatch x with
             | context [match _ with _ => _ end] => fail
             | _ => idtac
             end;
             destruct x eqn:?; cbn in *
         end.

Lemma thread_inv_step (s : CameraThread * Pc (Frame := Frame)) e :
  thread_inv s -> thread_inv (exec_event s e).
Proof.
  destruct s as [[ci wd ht rn [m its] [[opened]|]] pc].
  all: unfold thread_inv, slot_ok; cbn; intros ([-> Hlen] & Hput & Hexit).
  all: destruct its as [|x [|y its]]; cbn in Hlen; try lia.
  all: destruct e as [env | | |]; cbn.
  all: try (destruct pc; cbn;
            unfold full, put, get_nowait, qsize, stop, stop_release,
              stop_signal, holds_device in *; cbn in *;
            step_cases; repeat split; intros; subst;
            try discriminate; try reflexivity; try lia; auto;
            try (apply Hexit; assumption);
            match goal with
            | H : forall f, _ = _ -> _ = [] |- _ =>
                solve [discriminate (H _ eq_refl)]
            end).
  all: unfold stop_signal, stop_release, get_frame, get_nowait,
         holds_device in *; cbn in *;
    repeat split; intros; try discriminate; try lia; auto;
    try (apply Hexit; assumption); try (eapply Hput; eassumption).
Qed.

Lemma thread_inv_exec events : forall s : CameraThread * Pc (Frame := Frame),
  thread_inv s -> thread_inv (exec events s).
Proof.
  induction events as [|e events IH]; intros s H; [exact H|].
  apply (IH (exec_event s e)). apply thread_inv_step. exact H.
Qed.

(** With the running flag down, every step of [run] brings it closer
    to its end, and nothing raises the flag again. *)
Lemma exit_bound_step (s : CameraThread * Pc (Frame := Frame)) e :
  thread_inv s ->
  running (fst s) = false ->
  running (fst (exec_event s e)) = false
  /\ (steps_to_exit (snd (exec_event s e))
      <= steps_to_exit (snd s) - thread_steps [e])%nat.
Proof.
  destruct s as [[ci wd ht rn [m its] [[opened]|]] pc].
  all: unfold thread_inv, slot_ok; cbn;
    intros ([-> Hlen] & Hput & _) ->.
  all: destruct its as [|x [|y its]]; cbn in Hlen; try lia.
  all: destruct e as [env | | |]; cbn.
  all: try (destruct pc as [[|b bs]| | | | | | | | | |]; cbn;
            unfold full, put, get_nowait, qsize, stop, stop_release,
              stop_signal, holds_device in *; cbn in *;
            step_cases; split; try reflexivity; try lia;
            match goal with
            | H : forall f, _ = _ -> _ = [] |- _ =>
                solve [discriminate (H _ eq_refl)]
            end).
  all: unfold stop_signal, stop_release, get_frame, get_nowait in *;
    cbn in *; split; try reflexivity; lia.
Qed.

Lemma exit_bound events : forall s : CameraThread * Pc (Frame := Frame),
  thread_inv s ->
  running (fst s) = false ->
  (steps_to_exit (snd (exec events s))
   <= steps_to_exit (snd s) - thread_steps events)%nat.
Proof.
  induction events as [|e events IH]; intros s Hinv Hrun.
  - cbn. lia.
  - destruct (exit_bound_step s e Hinv Hrun) as [Hrun' Hstep].
    specialize (IH (exec_event s e) (thread_inv_step s e Hinv) Hrun').
    change (exec (e :: events) s) with (exec events (exec_event s e)).
    assert (thread_steps (e :: events)
            = (thread_steps [e] + thread_steps events)%nat)
      by (destruct e; reflexivity).
    lia.
Qed.

Lemma exited_at_zero (pc : Pc (Frame := Frame)) :
  steps_to_exit pc = 0%nat -> alive pc = false.
Proof. destruct pc; cbn; try reflexivity; discriminate. Qed.

(** The steps of the [if ret:] block, run without interruption, are
    [publish]: three steps when the slot is full, two when it is not. *)
Lemma publish_in_steps t (f : Frame) (e1 e2 e3 : Answer) :
  slot_ok t ->
  exists q,
    publish f (frame_queue t) = Some q
    /\ exec (if full (frame_queue t)
             then [ThreadStep e1; ThreadStep e2; ThreadStep e3]
             else [ThreadStep e1; ThreadStep e2]) (t, AtFull f)
       = (set_frame_queue q t, AtWaitKey).
Proof.
  destruct t as [ci wd ht rn [m its] cam]. unfold slot_ok. cbn.
  intros [-> Hlen]. exists (mkQueue 1 [f]).
  destruct its as [|x [|y its]]; cbn in Hlen; try lia;
    split; reflexivity.
Qed.

(** C6.  After any execution of the two threads, let the producer
    write the frames [older] and then [latest] with no read in between:
    no write blocks, the slot then holds [latest] alone, [get_frame]
    returns it and the next [get_frame] returns [None].  [get_frame]
    on a thread object that was never written to, or whose slot is
    empty, returns [None] and leaves the object as it is.  And at no
    point of an execution does the [put] of [run] block, whatever the
    reads interleaved with its steps. *)
Theorem single_slot_keeps_latest_frame (index w h : Z)
    (events : list Event) (older : list Frame) (latest : Frame) :
  let s := exec events (start (init index w h)) in
  (exists t',
      publish_frames (older ++ [latest]) (fst s) = Some t'
      /\ items (frame_queue t') = [latest]
      /\ fst (get_frame t') = Some latest
      /\ fst (get_frame (snd (get_frame t'))) = None)
  /\ get_frame (init (Frame := Frame) index w h)
     = (None, init index w h)
  /\ (forall t, items (frame_queue t) = [] -> get_frame t = (None, t))
  /\ (forall f, snd s = AtPut f ->
                exists q, put f (frame_queue (fst s)) = Some q).
Proof.
  cbv zeta.
  pose proof (thread_inv_exec events _ (thread_inv_start index w h))
    as ([Hm Hl] & Hput & _).
  repeat split.
  - unfold publish_frames.
    rewrite publish_all_slot by assumption.
    eexists. split; [reflexivity|]. repeat split.
  - intros t Ht. unfold get_frame, get_nowait. rewrite Ht. reflexivity.
  - intros f Hf. specialize (Hput f Hf). unfold put, full, qsize.
    rewrite Hput, Hm. cbn. eexists. reflexivity.
Qed.

(** C8, as the code has it.  [stop()] is idempotent: it lowers the
    running flag and releases the handle the thread object holds, and
    a second call changes nothing.  It returns without waiting for
    [run]: it changes the thread object only.  Along every execution,
    once [run] has returned the flag is down and the device released;
    and once the flag is down, [run] returns within
    [steps_to_exit] of its own steps, whatever else happens. *)
Theorem stop_signals_and_releases (index w h : Z) (events : list Event) :
  let s := exec events (start (init (Frame := Frame) index w h)) in
  (forall t,
      stop (stop t) = stop t
      /\ running (stop t) = false
      /\ holds_device (stop t) = false)
  /\ (forall t (pc : Pc (Frame := Frame)),
        exec CallStop (t, pc) = (stop t, pc))
  /\ (alive (snd s) = false ->
      running (fst s) = false /\ holds_device (fst s) = false)
  /\ (forall more,
        running (fst s) = false ->
        (steps_to_exit (snd s) <= thread_steps more)%nat ->
        alive (snd (exec more s)) = false).
Proof.
  cbv zeta.
  pose proof (thread_inv_exec events _ (thread_inv_start index w h))
    as Hinv.
  split; [|split; [|split]].
  - intro t. destruct t as [ci wd ht rn q [[opened]|]]; repeat split.
  - intros t pc. reflexivity.
  - intro H. apply Hinv. exact H.
  - intros more Hrun Hsteps. apply exited_at_zero.
    pose proof (exit_bound more _ Hinv Hrun). lia.
Qed.

End CameraFacts.

(** ** The frame source on concrete runs *)

Section CameraExamples.

Import Camera Handoff.

(** C8 as worded fails twice.  Called while [run] is in its loop,
    [stop()] returns with [run] still to return.  Called before [run]
    has opened the device, [stop()] returns and [run] opens the device
    afterwards. *)
Lemma stop_does_not_join :
  ~ stop_returns_after_exit enters_loop
  /\ ~ device_free_after_stop [] [ThreadStep device_opens].
Proof. split; vm_compute; discriminate. Qed.

(** The second execution continued: [run] finds the flag down and
    releases the device on its way out. *)
Lemma late_open_is_released :
  let s := exec (CallStop ++ enters_loop) camera0 in
  snd s = AtFinally
  /\ holds_device (fst s) = true
  /\ exec [ThreadStep device_opens] s
     = (stop (fst s), Exited)
  /\ holds_device (stop (fst s)) = false.
Proof. vm_compute. repeat split. Qed.

(** Three frames written, none read: the third is handed over, once. *)
Lemma three_writes_one_frame :
  exists t,
    publish_frames [1; 2; 3] (init 0 800 600) = Some t
    /\ fst (get_frame t) = Some 3
    /\ fst (get_frame (snd (get_frame t))) = None.
Proof. eexists. vm_compute. repeat split. Qed.

End CameraExamples.

(** * Properties of the processing loop *)

Section LoopFacts.

Import PyStr Monitor App Loop.

Variable randint : nat -> Z.

Lemma update_stats_keeps_caption now c w :
  custom_text (self (snd (update_stats randint now c w)))
  = custom_text (self w).
Proof.
  destruct w as [[ct mpc mpf fc cpc tp tr tst tss sms nt ts] k].
  unfold update_stats. cbn.
  repeat match goal with
         | |- context [if ?c then _ else _] =>
             lazymatch c with
             | context [if _ then _ else _] => fail
             | _ => idtac
             end;
             destruct c; cbn
         end; reflexivity.
Qed.

(** With detection on and a readable target field, the loop drives the
    monitor by the protocol: [update_stats], then
    [mark_notification_triggered] when it answered [True]. *)
Lemma loop_follows_protocol r c n a :
  detecting a && current_model a = true ->
  target_pills_var r = Some n ->
  watermark (_update_video randint r (Some c) a)
  = snd (Protocol.tick randint (watermark a)
           (Protocol.mkObs (now r) c (stamp r))).
Proof.
  intros Hd Hv. unfold _update_video, Protocol.tick. rewrite Hd. cbn.
  destruct (update_stats randint (now r) c (watermark a)) as [[|] wm];
    [|reflexivity].
  unfold _trigger_success_notification. rewrite Hv. reflexivity.
Qed.

(** C3, as the code has it.  In a tick where [update_stats] answers
    [True] and the target field can be read, the loop makes three
    calls, in this order: it plays the chime, it enqueues the
    announcement on the dispatcher, and it marks the notification on
    the monitor.  The enqueue comes before the mark, not after it. *)
Theorem notification_is_enqueued_then_marked
    (r : Reading) (pill_count n : Z) (a : PillDetectorApp) :
  detecting a && current_model a = true ->
  fst (update_stats randint (now r) pill_count (watermark a)) = true ->
  target_pills_var r = Some n ->
  let a' := _update_video randint r (Some pill_count) a in
  let message :=
    custom_text (self (watermark a)) ++ of_int n ++ announcement_tail in
  let made := [PlayBeep; Speak message; MarkNotificationTriggered] in
  calls a' = calls a ++ made
  /\ occurs_before is_speak is_mark made = true
  /\ occurs_before is_mark is_speak made = false
  /\ audio_manager a'
     = Audio.speak (engine_ok r) (Some message) (audio_manager a)
  /\ watermark a'
     = mark_notification_triggered (stamp r)
         (snd (update_stats randint (now r) pill_count (watermark a))).
Proof.
  intros Hd Hf Hv. cbv zeta.
  unfold _update_video. rewrite Hd.
  pose proof (update_stats_keeps_caption (now r) pill_count (watermark a))
    as Hc.
  destruct (update_stats randint (now r) pill_count (watermark a))
    as [fired wm].
  cbn in Hf, Hc. subst fired.
  unfold _trigger_success_notification. rewrite Hv.
  unfold record, set_audio_manager, set_watermark.
  cbn [calls watermark audio_manager detecting current_model].
  rewrite Hc, <- !app_assoc. repeat split.
Qed.

End LoopFacts.

(** ** The processing loop on a concrete tick *)

Section LoopExamples.

Import PyStr Monitor App Loop.

(** C3 as worded, on a tick that fires: among the calls of the tick, no
    [mark_notification_triggered] comes before the [speak]. *)
Lemma mark_comes_after_speak :
  fst (update_stats Protocol.always_two (now firing_reading) 5
         (watermark waiting_app)) = true
  /\ ~ (occurs_before is_mark is_speak (calls firing_tick) = true).
Proof. split; [vm_compute; reflexivity|]. vm_compute. discriminate. Qed.

(** C3 on the same tick. *)
Lemma notification_is_enqueued_then_marked_witness :
  detecting waiting_app && current_model waiting_app = true
  /\ fst (update_stats Protocol.always_two (now firing_reading) 5
            (watermark waiting_app)) = true
  /\ target_pills_var firing_reading = Some 5
  /\ calls (_update_video Protocol.always_two firing_reading (Some 5)
              waiting_app)
     = calls waiting_app
       ++ [PlayBeep;
           Speak (custom_text (self (watermark waiting_app))
                    ++ of_int 5 ++ announcement_tail);
           MarkNotificationTriggered].
Proof.
  assert (Hd : detecting waiting_app && current_model waiting_app = true)
    by (vm_compute; reflexivity).
  assert (Hf : fst (update_stats Protocol.always_two (now firing_reading)
                      5 (watermark waiting_app)) = true)
    by (vm_compute; reflexivity).
  assert (Hv : target_pills_var firing_reading = Some 5)
    by (vm_compute; reflexivity).
  split; [exact Hd|]. split; [exact Hf|]. split; [exact Hv|].
  exact (proj1 (notification_is_enqueued_then_marked Protocol.always_two
                  firing_reading 5 5 waiting_app Hd Hf Hv)).
Defined.

(** The calls of that tick, the state of the monitor after it and
    what the sink was given. *)
Lemma firing_tick_calls :
  calls firing_tick
  = [PlayBeep;
     Speak (of_string "Rx5" ++ announcement_tail);
     MarkNotificationTriggered]
  /\ notification_triggered (self (watermark firing_tick)) = true
  /\ Audio.said (Dispatch.sink (audio_manager firing_tick))
     = [of_string "Rx5" ++ announcement_tail].
Proof. vm_compute. repeat split. Qed.

End LoopExamples.

(** * Properties of the model files *)

Section ModelFileFacts.

Import ModelFile.

Variable md5 : bytes -> bytes.

Lemma xor_key_twice (b : Byte.byte) : xor (xor b KEY) KEY = b.
Proof. destruct b; reflexivity. Qed.

Lemma xor_key_moves (b : Byte.byte) : xor b KEY <> b.
Proof. destruct b; discriminate. Qed.

(** X1.  [encrypt_model] writes the 18 bytes of the header, the digest
    of the model and a payload as long as the model; the payload differs
    from the model at every byte, and the transformation [decrypt_model]
    applies to a payload gives the model back. *)
Theorem encrypt_model_payload_restores (model_data : bytes) :
  let payload := xor_key model_data in
  encrypt_model md5 (Some model_data) true
  = (true, Some (HEADER ++ md5 model_data ++ payload))
  /\ List.length HEADER = 18%nat
  /\ List.length payload = List.length model_data
  /\ Forall2 (fun p b => p <> b) payload model_data
  /\ xor_key payload = model_data.
Proof.
  cbv zeta. unfold xor_key. repeat split.
  - apply length_map.
  - induction model_data as [|b d IH]; cbn; constructor;
      [apply xor_key_moves | exact IH].
  - rewrite map_map. rewrite <- (map_id model_data) at 2.
    apply map_ext. intro b. apply xor_key_twice.
Qed.

(** The header test of [decrypt_model] fails on every file. *)
Lemma decrypt_model_header_mismatch
    (rp_file : option bytes) (writable : bool) :
  decrypt_model md5 rp_file writable = (false, None).
Proof.
  destruct rp_file as [content|]; [|reflexivity].
  unfold decrypt_model, differ.
  destruct (list_eq_dec Byte.byte_eq_dec (firstn 16 content) HEADER)
    as [E|_]; [exfalso|reflexivity].
  apply (f_equal (@List.length Byte.byte)) in E.
  assert (L : List.length HEADER = 18%nat) by reflexivity.
  rewrite length_firstn, L in E. lia.
Qed.

(** X2.  [decrypt_model] compares the first 16 bytes of the file with
    the 18-byte header, so it rejects every file: it answers [False] and
    writes nothing, whatever the file holds, and also for the files
    [encrypt_model] writes. *)
Theorem decrypt_model_rejects_every_file
    (rp_file : option bytes) (writable : bool) (model_data : bytes) :
  decrypt_model md5 rp_file writable = (false, None)
  /\ decrypt_model md5
       (snd (encrypt_model md5 (Some model_data) true)) writable
     = (false, None).
Proof. split; apply decrypt_model_header_mismatch. Qed.

End ModelFileFacts.

(** * Properties of the overlay *)

Section OverlayFacts.

Import PyStr Monitor Protocol Overlay.

Lemma Qlt_bool_iff (a b : Q) : Qlt_bool a b = true <-> (a < b)%Q.
Proof.
  unfold Qlt_bool. rewrite negb_true_iff. split.
  - intro H. apply Qnot_le_lt. intro L. apply Qle_bool_iff in L. congruence.
  - intro H. apply not_true_is_false. intro L. apply Qle_bool_iff in L.
    apply (Qlt_not_le _ _ H L).
Qed.

Lemma Qlt_bool_false (a b : Q) : Qlt_bool a b = false <-> (b <= a)%Q.
Proof.
  unfold Qlt_bool. rewrite negb_false_iff. apply Qle_bool_iff.
Qed.

Lemma clamp_in_unit (v : Q) : (0 <= py_max 0 (py_min 1 v) <= 1)%Q.
Proof.
  unfold py_max, py_min.
  destruct (Qlt_bool v 1) eqn:E1.
  - apply Qlt_bool_iff in E1.
    destruct (Qlt_bool 0 v) eqn:E2.
    + apply Qlt_bool_iff in E2. split; lra.
    + split; lra.
  - destruct (Qlt_bool 0 1) eqn:E2.
    + split; lra.
    + apply Qlt_bool_false in E2. lra.
Qed.

(** X3.  Whatever sequence of [set_position], [start_drag],
    [update_drag] and [end_drag] calls is made with whatever arguments,
    values from the configuration file and drags beyond the frame
    included, both coordinates of the overlay stay between 0 and 1. *)
Theorem overlay_position_stays_in_frame (ops : list Op) :
  in_frame (exec ops init).
Proof.
  assert (H : forall p, in_frame p -> in_frame (exec ops p)).
  { induction ops as [|o ops IH]; intros p Hp; [exact Hp|].
    apply (IH (exec_op p o)).
    destruct o as [x y | x y w h | x y w h |]; cbn.
    - split; apply clamp_in_unit.
    - exact Hp.
    - unfold update_drag.
      destruct (dragging p); [|exact Hp].
      destruct ((w =? 0) || (h =? 0)); [exact Hp|].
      split; apply clamp_in_unit.
    - exact Hp. }
  apply H. unfold in_frame, init. cbn. split; split; lra.
Qed.

Lemma corner_inside (extent size : Z) (percent : Q) :
  size + 10 <= extent ->
  0 <= corner extent size percent
  /\ corner extent size percent + size <= extent.
Proof.
  intro Hfit. unfold corner.
  destruct (extent <? int (inject_Z extent * percent) + size) eqn:E1.
  - destruct (extent - size - 10 <? 0) eqn:E2.
    + apply Z.ltb_lt in E2. lia.
    + apply Z.ltb_ge in E2. lia.
  - apply Z.ltb_ge in E1.
    destruct (int (inject_Z extent * percent) <? 0) eqn:E2.
    + lia.
    + apply Z.ltb_ge in E2. lia.
Qed.

(** X4.  When the background of the overlay fits in the frame with a
    margin of 10 pixels, [add_watermark] draws it inside the frame,
    wherever the position in per cent puts it. *)
Theorem overlay_background_inside_frame
    (width height : Z) (p : Placement) (boxes : list BBox) :
  bg_width boxes + 10 <= width ->
  bg_height boxes + 10 <= height ->
  let '(pos_x, pos_y) := background_corner width height p boxes in
  0 <= pos_x /\ pos_x + bg_width boxes <= width
  /\ 0 <= pos_y /\ pos_y + bg_height boxes <= height.
Proof.
  intros Hw Hh. unfold background_corner.
  destruct (corner_inside width (bg_width boxes) (position_x p) Hw).
  destruct (corner_inside height (bg_height boxes) (position_y p) Hh).
  auto.
Qed.

(** X5.  While the monitor waits for the settle duration, the overlay
    has six lines, the fifth being the countdown; the countdown is never
    negative, and at a given instant it shows 0 exactly when
    [update_stats], called at that instant with the target count, would
    answer [True]. *)
Theorem countdown_is_zero_when_due
    (randint : nat -> Z) (now : Q) (current_time : str) (T : Z)
    (w : World) (start : Q) (settle : Z) :
  0 < T ->
  in_phase T w (Waiting start settle) ->
  let remaining := py_max 0 (inject_Z settle - (now - start)) in
  info_lines now current_time (self w)
  = [TimeLine current_time;
     CurrentCountLine (current_pill_count (self w));
     MaxCountLine (max_pill_count (self w)) (max_pill_frame (self w));
     TargetLine T;
     CountdownLine remaining;
     CaptionLine (custom_text (self w))]
  /\ (0 <= remaining)%Q
  /\ ((remaining == 0)%Q
      <-> fst (update_stats randint now T w) = true).
Proof.
  intros Hpos Hph. cbv zeta.
  pose proof (tick_refines_phase randint T w _ (mkObs now T []) Hpos Hph)
    as [Hans _].
  rewrite tick_answer in Hans. cbn [obs_time obs_count] in Hans.
  unfold phase_step in Hans. cbn [obs_time obs_count] in Hans.
  rewrite Z.eqb_refl in Hans.
  destruct Hph as (HT & Hr & Hs & _ & Hst & Hsb).
  split; [|split].
  - unfold info_lines. rewrite HT, Hr, Hs, Hst, Hsb.
    apply Z.ltb_lt in Hpos. rewrite Hpos. reflexivity.
  - unfold py_max.
    destruct (Qlt_bool 0 (inject_Z settle - (now - start))) eqn:E.
    + apply Qlt_bool_iff in E. lra.
    + lra.
  - rewrite Hans. unfold py_max.
    destruct (Qlt_bool 0 (inject_Z settle - (now - start))) eqn:E.
    + apply Qlt_bool_iff in E.
      destruct (Qle_bool (inject_Z settle) (now - start)) eqn:L.
      * apply Qle_bool_iff in L. lra.
      * cbn. split; [intro H; lra | discriminate].
    + apply Qlt_bool_false in E.
      assert (L : Qle_bool (inject_Z settle) (now - start) = true)
        by (apply Qle_bool_iff; lra).
      rewrite L. cbn. split; [reflexivity | intros _; lra].
Qed.

End OverlayFacts.

(** ** The overlay on concrete frames *)

Section OverlayExamples.

Import PyStr Monitor Protocol Overlay.

(** X4 on an 800 by 600 frame with two lines of text and the overlay
    pushed to the bottom right corner. *)
Lemma overlay_background_inside_frame_witness :
  let boxes := [(0, 0, 200, 20); (0, 0, 120, 16)] in
  let p := set_position 1 1 init in
  bg_width boxes + 10 <= 800
  /\ bg_height boxes + 10 <= 600
  /\ (let '(pos_x, pos_y) := background_corner 800 600 p boxes in
      0 <= pos_x /\ pos_x + bg_width boxes <= 800
      /\ 0 <= pos_y /\ pos_y + bg_height boxes <= 600).
Proof.
  cbv zeta.
  assert (Hw : bg_width [(0, 0, 200, 20); (0, 0, 120, 16)] + 10 <= 800)
    by (vm_compute; discriminate).
  assert (Hh : bg_height [(0, 0, 200, 20); (0, 0, 120, 16)] + 10 <= 600)
    by (vm_compute; discriminate).
  split; [exact Hw|]. split; [exact Hh|].
  exact (overlay_background_inside_frame 800 600 (set_position 1 1 init)
           [(0, 0, 200, 20); (0, 0, 120, 16)] Hw Hh).
Defined.

(** X5 on a monitor with target 5 that saw the count 5 at time 0 and
    drew a settle duration of 2 seconds, looked at one second later. *)
Lemma countdown_is_zero_when_due_witness :
  let w := snd (update_stats always_two 0 5
                  (set_target_pills 5 (Monitor.init []))) in
  0 < 5
  /\ in_phase 5 w (Waiting 0 2)
  /\ (0 <= py_max 0 (inject_Z 2 - (1 - 0)))%Q
  /\ ((py_max 0 (inject_Z 2 - (1 - 0)) == 0)%Q
      <-> fst (update_stats always_two 1 5 w) = true).
Proof.
  cbv zeta.
  assert (Hpos : 0 < 5) by lia.
  assert (Hph : in_phase 5
                  (snd (update_stats always_two 0 5
                          (set_target_pills 5 (Monitor.init []))))
                  (Waiting 0 2))
    by (vm_compute; repeat split).
  split; [exact Hpos|]. split; [exact Hph|].
  exact (proj2 (countdown_is_zero_when_due always_two 1 [] 5 _ 0 2
                  Hpos Hph)).
Defined.

End OverlayExamples.

(** * Properties of the statistics and of the reset of the monitor *)

Section StatisticsFacts.

Import Monitor Protocol App Statistics.

Variable randint : nat -> Z.













(** X7.  [reset_stats] keeps the target and ends the episode: the
    flags are cleared, and with a target [T > 0] the next count equal
    to [T] answers [False] and begins a new episode, whose settle
    duration is drawn then and kept for the run, even when the counts
    before the reset were equal to [T] as well. *)
Theorem reset_stats_starts_a_new_episode (T : Z) (w0 : World) :
  0 < T ->
  target_pills (self w0) = T ->
  let w := reset_stats w0 in
  target_pills (self w) = T
  /\ flags_reset w
  /\ forall s rn,
       Forall (fun o => obs_count o = T) (s :: rn) ->
       fires randint w [] s = false
       /\ target_reached (self (run randint w (s :: rn))) = true
       /\ target_start_time (self (run randint w (s :: rn))) = obs_time s
       /\ target_stable_seconds (self (run randint w (s :: rn)))
          = randint (rng_calls w0)
       /\ rng_calls (run randint w (s :: rn)) = S (rng_calls w0).
Proof.
  intros Hpos HT. cbv zeta.
  split; [exact HT|]. split; [repeat split|].
  intros s rn Hall.
  assert (HT' : target_pills (self (reset_stats w0)) = T) by exact HT.
  assert (Hr : target_reached (self (reset_stats w0)) = false)
    by reflexivity.
  split.
  - unfold fires. rewrite <- tick_answer.
    apply (tick_begins randint (reset_stats w0) s); try assumption.
    + rewrite HT'. exact Hpos.
    + rewrite HT'. exact (Forall_inv Hall).
  - exact (episode randint T (reset_stats w0) [] s rn Hpos HT' Hr
             (or_introl eq_refl) Hall).
Qed.

(** X8.  With a target of 0 or below, which [set_target_pills] accepts
    and the configuration file can hold, every [update_stats] answers
    [False] and leaves the flags of the monitor cleared, whatever the
    counts. *)
Theorem nonpositive_target_disables (w : World) :
  target_pills (self w) <= 0 ->
  forall pre o,
    fires randint w pre o = false
    /\ flags_reset
         (snd (update_stats randint (obs_time o) (obs_count o)
                 (run randint w pre))).
Proof.
  intros Hle pre o.
  assert (Ht : target_pills (self (run randint w pre)) <= 0)
    by (rewrite run_keeps_target; exact Hle).
  split.
  - apply update_stats_disabled. exact Ht.
  - revert Ht. generalize (run randint w pre). intros v Ht.
    destruct v as [[ct mpc mpf fc cpc tp tr tst tss sms nt ts] k].
    cbn in Ht. unfold flags_reset, update_stats.
    cbn -[Z.add Z.ltb Z.eqb Qle_bool Qminus inject_Z].
    assert (E : (0 <? tp) = false) by (apply Z.ltb_ge; exact Ht).
    destruct (mpc <? obs_count o);
      cbn -[Z.add Z.ltb Z.eqb Qle_bool Qminus inject_Z];
      rewrite E; cbn; repeat split.
Qed.

End StatisticsFacts.

(** ** The statistics and the reset on concrete runs *)

Section StatisticsExamples.

Import Monitor Protocol.

(** X7 at target 5. *)
Lemma reset_stats_starts_a_new_episode_witness :
  0 < 5
  /\ target_pills (self (set_target_pills 5 (init []))) = 5
  /\ target_pills (self (reset_stats (set_target_pills 5 (init [])))) = 5.
Proof.
  assert (Hpos : 0 < 5) by lia.
  assert (HT : target_pills (self (set_target_pills 5 (init []))) = 5)
    by reflexivity.
  split; [exact Hpos|]. split; [exact HT|].
  exact (proj1 (reset_stats_starts_a_new_episode always_two 5
                  (set_target_pills 5 (init [])) Hpos HT)).
Defined.

(** A reset in the middle of a run of equal counts: the run is
    notified twice. *)
Lemma reset_lets_a_run_fire_twice :
  let w1 := run always_two (set_target_pills 5 (init []))
              [mkObs 0 5 []; mkObs 1 5 []] in
  let w2 := snd (tick always_two w1 (mkObs 2 5 [])) in
  let w3 := run always_two (reset_stats w2)
              [mkObs 3 5 []; mkObs 4 5 []] in
  fst (tick always_two w1 (mkObs 2 5 [])) = true
  /\ fst (tick always_two w3 (mkObs 5 5 [])) = true.
Proof. vm_compute. split; reflexivity. Qed.

(** Three ticks with detection on, the second without a result of the
    model: two counts are passed, and the statistics tell of two
    frames. *)
Lemma tick_without_result_is_not_counted :
  let none := App.mkReading 0 [] None Audio.Returns in
  let l := [(none, Some 7); (none, None); (none, Some 4)] in
  let s := self (App.watermark
                   (Statistics.ticks always_two l Loop.waiting_app)) in
  Statistics.passed_counts Loop.waiting_app l = [7; 4]
  /\ frame_count (self (App.watermark Loop.waiting_app)) = 1
  /\ frame_count s = 3
  /\ current_pill_count s = 4
  /\ max_pill_count s = 7
  /\ max_pill_frame s = 2.
Proof. vm_compute. repeat split. Qed.

(** X8 at the target -3. *)
Lemma nonpositive_target_disables_witness :
  target_pills (self (set_target_pills (-3) (init []))) <= 0
  /\ fires always_two (set_target_pills (-3) (init []))
       [mkObs 0 (-3) []] (mkObs 9 (-3) []) = false.
Proof.
  assert (H : target_pills (self (set_target_pills (-3) (init []))) <= 0)
    by (vm_compute; discriminate).
  split; [exact H|].
  exact (proj1 (nonpositive_target_disables always_two _ H
                  [mkObs 0 (-3) []] (mkObs 9 (-3) []))).
Defined.

End StatisticsExamples.

(** * Properties of a dispatcher without sink, and of its shutdown *)

Section ShutdownFacts.

Import PyStr Audio Dispatch Shutdown.

(** X9.  When [_init_audio] fails, with or without an engine object
    left behind, the dispatcher stays exactly as [__init__] left it
    under every sequence of [speak] calls and completion events: nothing
    is queued, nothing is played, nothing raises. *)
Theorem dispatcher_without_sink_is_inert
    (engine_ok setup_ok : bool) (ops : list Op) :
  engine_ok && setup_ok = false ->
  exec ops (Audio.init engine_ok setup_ok) = Audio.init engine_ok setup_ok.
Proof.
  intro H. induction ops as [|o ops IH] using rev_ind; [reflexivity|].
  rewrite exec_snoc, IH.
  destruct engine_ok, setup_ok; try discriminate H;
    destruct o as [text ok | ok]; reflexivity.
Qed.

(** The operations never read what the sink was given: they only add
    to it. *)
Lemma exec_op_said_before before a o :
  exec_op (with_said_before before a) o
  = with_said_before before (exec_op a o).
Proof.
  destruct a as [[[sd pl]|] ini q sp]; destruct o as [text ok | ok];
    cbn [exec_op].
  - unfold speak, with_said_before, unavailable.
    cbn [engine initialized set_engine message_queue is_speaking].
    destruct ini; cbn [negb orb]; [|reflexivity].
    destruct (blank text); [reflexivity|].
    destruct text as [t|]; [|reflexivity].
    destruct sp; cbn; [reflexivity|].
    destruct (q ++ [t]) as [|x rest]; [reflexivity|].
    destruct ok; cbn; rewrite ?app_assoc; reflexivity.
  - unfold utterance_finished, _on_speech_end, with_said_before.
    cbn [engine initialized set_engine set_is_speaking message_queue
         is_speaking].
    destruct q as [|x rest]; [reflexivity|].
    destruct ini, ok; cbn; rewrite ?app_assoc; reflexivity.
  - unfold speak, with_said_before, unavailable. cbn.
    destruct ini; reflexivity.
  - unfold utterance_finished, _on_speech_end, with_said_before. cbn.
    destruct q as [|x rest]; [reflexivity|].
    unfold _process_next_message, _speak_direct, unavailable. cbn.
    destruct ini; reflexivity.
Qed.

Lemma exec_said_before before ops : forall a,
  exec ops (with_said_before before a)
  = with_said_before before (exec ops a).
Proof.
  induction ops as [|o ops IH]; intro a; [reflexivity|].
  change (exec (o :: ops) ?x) with (exec ops (exec_op x o)).
  rewrite exec_op_said_before. apply IH.
Qed.

(** What a [stop()] that runs to its end leaves of a dispatcher that
    has its sink. *)
Lemma stop_returns_fresh e q sp :
  stop true true (mkAudio (Some e) true q sp)
  = with_said_before (said e) fresh.
Proof.
  unfold stop, with_said_before, fresh, halt. cbn.
  rewrite app_nil_r. reflexivity.
Qed.

(** What a [stop()] that raises leaves of it: the queue and the flag,
    and the sink with what it was given. *)
Lemma stop_raises_keeps e q sp engine_stops mixer_quits :
  engine_stops && mixer_quits = false ->
  stop engine_stops mixer_quits (mkAudio (Some e) true q sp)
  = mkAudio (Some (if engine_stops then halt e else e)) true q sp.
Proof.
  destruct engine_stops, mixer_quits; try discriminate; reflexivity.
Qed.

(** X10.  On a dispatcher that has its sink, a [stop()] that runs to
    its end empties the queue, lowers the speaking flag and halts the
    sink; the texts that were waiting are never played.  Whatever
    [speak] calls and completion events follow, the sink is given,
    after what it had been given before the stop, only texts enqueued
    after the stop, in their order, and it has at most one unfinished
    utterance when nothing raises after a [say].

    A [stop()] in which [engine.stop()] raises changes nothing.  One in
    which [pygame.mixer.quit()] raises halts the sink and leaves the
    queue and the speaking flag as they were.  In both cases the texts
    that were waiting are not abandoned: when no call raised before,
    one completion event per waiting text has the sink given every
    text enqueued before the stop. *)
Theorem stop_abandons_pending_texts (ops_before ops_after : list Op) :
  let a := exec ops_before fresh in
  (let b := exec ops_after (stop true true a) in
   message_queue (stop true true a) = []
   /\ is_speaking (stop true true a) = false
   /\ playing (sink (stop true true a)) = []
   /\ exists handed played,
        enqueued ops_after = handed ++ message_queue b
        /\ said (sink b) = said (sink a) ++ played
        /\ subseq played handed
        /\ (forallb run_returns ops_after = true ->
            (List.length (playing (sink b)) <= 1)%nat))
  /\ (forall mixer_quits, stop false mixer_quits a = a)
  /\ (message_queue (stop true false a) = message_queue a
      /\ is_speaking (stop true false a) = is_speaking a
      /\ sink (stop true false a) = halt (sink a))
  /\ (forall engine_stops mixer_quits,
        engine_stops && mixer_quits = false ->
        forallb op_ok ops_before = true ->
        let c := stop engine_stops mixer_quits a in
        said (sink (exec (drain c) c)) = enqueued ops_before).
Proof.
  cbv zeta.
  destruct (dispatcher_inv_exec ops_before)
    as (e & handed0 & finished0 & He & Hi & Henq0 & _ & Hall0 & _ & Hsf0).
  destruct (exec ops_before fresh) as [eng ini q sp].
  cbn in He, Hi, Henq0. subst.
  unfold single_flight, sink in Hsf0. cbn in Hsf0.
  split; [|split; [|split]].
  - rewrite stop_returns_fresh, exec_said_before.
    destruct (dispatcher_inv_exec ops_after)
      as (e2 & handed & finished & He2 & _ & Henq & Hsub & _ & _ & Hsf).
    unfold single_flight, sink in Hsf.
    repeat split.
    exists handed, (said e2).
    unfold with_said_before. rewrite He2 in *.
    destruct (exec ops_after fresh) as [eng ini q2 sp2].
    cbn in He2, Henq, Hsf |- *. subst. repeat split; auto.
    intro H. apply Hsf, H.
  - intro mixer_quits. reflexivity.
  - repeat split.
  - intros engine_stops mixer_quits Hraise Hok.
    rewrite (stop_raises_keeps e q sp _ _ Hraise).
    destruct (all_ok_returns ops_before Hok) as [Hsay Hrun].
    unfold drain. cbn [message_queue].
    destruct (drain_queue q (if engine_stops then halt e else e) sp)
      as (_ & Hs & _).
    { destruct engine_stops; [cbn; lia | apply Hsf0, Hrun]. }
    rewrite Hs, Henq0, <- (Hall0 Hsay).
    destruct engine_stops; reflexivity.
Qed.

End ShutdownFacts.

(** ** The shutdown on concrete runs *)

Section ShutdownExamples.

Import PyStr Audio Dispatch Shutdown.

(** X9 on a dispatcher whose engine was created but whose set-up
    raised. *)
Lemma dispatcher_without_sink_is_inert_witness :
  true && false = false
  /\ exec [Speak (Some (of_string "one")) Returns; Finished Returns]
       (Audio.init true false)
     = Audio.init true false.
Proof.
  assert (H : true && false = false) by reflexivity.
  split; [exact H|].
  exact (dispatcher_without_sink_is_inert true false
           [Speak (Some (of_string "one")) Returns; Finished Returns]
           H).
Defined.

(** Two texts wait behind a third when [stop()] is called: they are
    not played afterwards. *)
Lemma stop_drops_the_waiting_texts :
  let a := exec [Speak (Some (of_string "one")) Returns;
                 Speak (Some (of_string "two")) Returns;
                 Speak (Some (of_string "three")) Returns] fresh in
  let b := exec [Finished Returns;
                 Speak (Some (of_string "four")) Returns;
                 Finished Returns] (stop true true a) in
  message_queue a = [of_string "two"; of_string "three"]
  /\ said (sink b) = [of_string "one"; of_string "four"].
Proof. vm_compute. split; reflexivity. Qed.

(** The same run with an [engine.stop()] that raises: the two texts
    are still waiting, and the completion events that follow play
    them. *)
Lemma raising_stop_keeps_the_waiting_texts :
  let a := exec [Speak (Some (of_string "one")) Returns;
                 Speak (Some (of_string "two")) Returns;
                 Speak (Some (of_string "three")) Returns] fresh in
  let b := exec [Finished Returns; Finished Returns]
             (stop false true a) in
  message_queue (stop false true a)
  = [of_string "two"; of_string "three"]
  /\ said (sink b)
     = [of_string "one"; of_string "two"; of_string "three"].
Proof. vm_compute. split; reflexivity. Qed.

End ShutdownExamples.

(** * Properties of a frame source whose device does not open *)

Section UnavailableFacts.

Import Camera Handoff Unavailable.

Context {Frame : Type}.

Lemma gave_nothing_step (s : CameraThread * Pc (Frame := Frame)) e :
  gave_nothing s ->
  match e with ThreadStep env => opens env = false | _ => True end ->
  gave_nothing (exec_event s e)
  /\ (steps_to_give_up (snd (exec_event s e))
      <= steps_to_give_up (snd s) - thread_steps [e])%nat.
Proof.
  destruct s as [[ci wd ht rn [m its] [[opened]|]] pc].
  all: unfold gave_nothing; cbn; intros (Hd & Hq & Hpc) He; subst.
  all: destruct e as [env | | |]; cbn.
  all: try (destruct pc as [[|b bs]| | | | | | | | | |];
            try contradiction; cbn;
            try rewrite He; destruct (raises env); cbn;
            repeat split; auto; lia).
  all: repeat split; auto; lia.
Qed.

(** X11.  When no backend opens the device, [run] never enters its
    loop: along every execution the device is not held, the slot stays
    empty and [get_frame] returns [None]; and [run] has returned after
    six of its steps at most. *)
Theorem unopened_device_gives_no_frame
    (index w h : Z) (events : list (Event (Frame := Frame))) :
  never_opens events ->
  let s := exec events (start (init index w h)) in
  holds_device (fst s) = false
  /\ items (frame_queue (fst s)) = []
  /\ fst (get_frame (fst s)) = None
  /\ ((6 <= thread_steps events)%nat -> alive (snd s) = false).
Proof.
  intro Hno. cbv zeta.
  assert (H : forall s0 : CameraThread * Pc (Frame := Frame),
             gave_nothing s0 ->
             gave_nothing (exec events s0)
             /\ (steps_to_give_up (snd (exec events s0))
                 <= steps_to_give_up (snd s0) - thread_steps events)%nat).
  { induction Hno as [|e events He _ IH]; intros s0 H0.
    - split; [exact H0 | cbn; lia].
    - destruct (gave_nothing_step s0 e H0 He) as [H1 Hb].
      destruct (IH _ H1) as [H2 Hb2].
      change (exec (e :: events) s0) with (exec events (exec_event s0 e)).
      split; [exact H2|].
      assert (thread_steps (e :: events)
              = (thread_steps [e] + thread_steps events)%nat)
        by (destruct e; reflexivity).
      lia. }
  destruct (H (start (init index w h))) as [(Hd & Hq & Hpc) Hb].
  { unfold gave_nothing. cbn. auto. }
  repeat split; try assumption.
  - unfold get_frame, get_nowait. rewrite Hq. reflexivity.
  - intro Hsteps.
    change (steps_to_give_up (snd (start (init index w h)))) with 6%nat
      in Hb.
    destruct (snd (exec events (start (init index w h))));
      cbn [steps_to_give_up alive] in Hb, Hpc |- *;
      try reflexivity; try contradiction; lia.
Qed.

End UnavailableFacts.

Section UnavailableExamples.

Import Camera Handoff Unavailable.

(** X11 on an execution where the three backends fail, the last one
    by raising. *)
Lemma unopened_device_gives_no_frame_witness :
  let fails := ThreadStep (mkAnswer (Frame := unit) false None false) in
  let throws := ThreadStep (mkAnswer (Frame := unit) false None true) in
  never_opens [fails; fails; GetFrame; throws; fails; fails; fails]
  /\ alive (snd (exec [fails; fails; GetFrame; throws; fails; fails; fails]
                   camera0)) = false.
Proof.
  cbv zeta.
  assert (H : never_opens
                [ThreadStep (mkAnswer (Frame := unit) false None false);
                 ThreadStep (mkAnswer false None false); GetFrame;
                 ThreadStep (mkAnswer false None true);
                 ThreadStep (mkAnswer false None false);
                 ThreadStep (mkAnswer false None false);
                 ThreadStep (mkAnswer false None false)])
    by (repeat constructor).
  split; [exact H|].
  apply (unopened_device_gives_no_frame 0 800 600 _ H).
  cbn. lia.
Defined.

End UnavailableExamples.

(** * More properties of the processing loop *)

Section LoopErrorFacts.

Import PyStr Monitor App Loop.

Variable randint : nat -> Z.

(** X12.  A tick with detection off, or with no model loaded, passes the
    count 0 to the monitor: it makes no call to the dispatcher, and it
    leaves the monitor outside an episode, so an episode that was in
    progress is abandoned. *)
Theorem tick_without_detection_abandons_episode
    (r : Reading) (results : option Z) (a : PillDetectorApp) :
  detecting a && current_model a = false ->
  let a' := _update_video randint r results a in
  watermark a' = snd (update_stats randint (now r) 0 (watermark a))
  /\ calls a' = calls a
  /\ audio_manager a' = audio_manager a
  /\ current_pill_count (self (watermark a')) = 0
  /\ target_reached (self (watermark a')) = false
  /\ notification_triggered (self (watermark a')) = false.
Proof.
  intro Hd. cbv zeta. unfold _update_video. rewrite Hd.
  unfold set_watermark. cbn [watermark calls audio_manager].
  repeat split.
  all: destruct (watermark a)
         as [[ct mpc mpf fc cpc tp tr tst tss sms nt ts] k];
    unfold update_stats;
    cbn -[Z.add Z.ltb Z.eqb Qle_bool Qminus inject_Z];
    destruct (mpc <? 0);
    cbn -[Z.add Z.ltb Z.eqb Qle_bool Qminus inject_Z];
    destruct (0 <? tp) eqn:Et;
    cbn -[Z.add Z.ltb Z.eqb Qle_bool Qminus inject_Z];
    try reflexivity.
  all: apply Z.ltb_lt in Et;
    assert (E0 : (0 =? tp) = false) by (apply Z.eqb_neq; lia);
    rewrite E0; reflexivity.
Qed.

(** In an episode, [update_stats] with the target count changes the
    counters only. *)
Lemma update_stats_holds now c w :
  0 < target_pills (self w) ->
  c = target_pills (self w) ->
  target_reached (self w) = true ->
  let s := self w in
  let s' := self (snd (update_stats randint now c w)) in
  target_pills s' = target_pills s
  /\ target_reached s' = true
  /\ target_start_time s' = target_start_time s
  /\ target_stable_seconds s' = target_stable_seconds s
  /\ success_message_shown s' = success_message_shown s
  /\ notification_triggered s' = notification_triggered s.
Proof.
  destruct w as [[ct mpc mpf fc cpc tp tr tst tss sms nt ts] k].
  cbn. intros Hpos -> ->.
  assert (E1 : (0 <? tp) = true) by (apply Z.ltb_lt; exact Hpos).
  unfold update_stats.
  cbn -[Z.add Z.ltb Z.eqb Qle_bool Qminus inject_Z].
  destruct (mpc <? tp);
    cbn -[Z.add Z.ltb Z.eqb Qle_bool Qminus inject_Z];
    rewrite E1, Z.eqb_refl;
    cbn -[Z.add Z.ltb Z.eqb Qle_bool Qminus inject_Z];
    destruct (negb sms && negb nt);
    try destruct (Qle_bool (inject_Z tss) (now - tst));
    cbn; repeat split.
Qed.

(** A [True] answer that is not acknowledged is given again at any
    later instant, for the same count. *)
Lemma update_stats_fires_again now later c w :
  fst (update_stats randint now c w) = true ->
  (now <= later)%Q ->
  fst (update_stats randint later c (snd (update_stats randint now c w)))
  = true
  /\ notification_triggered (self (snd (update_stats randint now c w)))
     = false.
Proof.
  intros Hf Hle.
  destruct (update_stats_true randint now c w Hf)
    as (Hpos & Hc & Hr & Hs & Hn & Hq).
  destruct (update_stats_holds now c w Hpos Hc Hr)
    as (KT & Kr & Kst & Ksb & Ks & Kn).
  cbv zeta in KT, Kr, Kst, Ksb, Ks, Kn.
  set (w' := snd (update_stats randint now c w)) in *.
  assert (Hph : Protocol.in_phase (target_pills (self w)) w'
                  (Protocol.Waiting (target_start_time (self w))
                     (target_stable_seconds (self w)))).
  { unfold Protocol.in_phase. repeat split; congruence. }
  pose proof (tick_refines_phase randint _ w' _
                (Protocol.mkObs later c []) Hpos Hph) as [Hans _].
  rewrite tick_answer in Hans.
  cbn [Protocol.obs_time Protocol.obs_count] in Hans.
  unfold Protocol.phase_step in Hans.
  cbn [Protocol.obs_time Protocol.obs_count] in Hans.
  rewrite Hc, Z.eqb_refl in Hans.
  assert (E : Qle_bool (inject_Z (target_stable_seconds (self w)))
                (later - target_start_time (self w)) = true)
    by (apply Qle_bool_iff; lra).
  rewrite E in Hans. cbn in Hans.
  split; [|congruence].
  rewrite Hc. exact Hans.
Qed.

(** X13.  When [update_stats] answers [True] but the target field cannot
    be read in the handler, the chime is played and nothing else
    happens: no text is enqueued and the notification is not marked.
    The monitor then answers [True] again at every later tick that shows
    the same count, and the chime is played again. *)
Theorem unreadable_target_field_repeats_chime
    (r : Reading) (pill_count : Z) (a : PillDetectorApp) :
  detecting a && current_model a = true ->
  fst (update_stats randint (now r) pill_count (watermark a)) = true ->
  target_pills_var r = None ->
  let a' := _update_video randint r (Some pill_count) a in
  calls a' = calls a ++ [PlayBeep]
  /\ audio_manager a' = audio_manager a
  /\ notification_triggered (self (watermark a')) = false
  /\ forall r', (now r <= now r')%Q ->
       target_pills_var r' = None ->
       calls (_update_video randint r' (Some pill_count) a')
       = calls a ++ [PlayBeep; PlayBeep].
Proof.
  intros Hd Hf Hv. cbv zeta.
  assert (Ha' : _update_video randint r (Some pill_count) a
                = record PlayBeep
                    (set_watermark
                       (snd (update_stats randint (now r) pill_count
                               (watermark a))) a)).
  { unfold _update_video. rewrite Hd.
    destruct (update_stats randint (now r) pill_count (watermark a))
      as [fired wm].
    cbn in Hf. subst fired.
    unfold _trigger_success_notification. rewrite Hv. reflexivity. }
  rewrite Ha'. unfold record, set_watermark.
  cbn [calls audio_manager watermark detecting current_model].
  split; [reflexivity|]. split; [reflexivity|].
  split.
  - apply (update_stats_fires_again (now r) (now r) pill_count
             (watermark a) Hf). apply Qle_refl.
  - intros r' Hle Hv'.
    destruct (update_stats_fires_again (now r) (now r') pill_count
                (watermark a) Hf Hle) as [Hagain _].
    unfold _update_video.
    cbn [calls audio_manager watermark detecting current_model].
    rewrite Hd.
    destruct (update_stats randint (now r') pill_count
                (snd (update_stats randint (now r) pill_count
                        (watermark a)))) as [fired wm].
    cbn in Hagain. subst fired.
    unfold _trigger_success_notification. rewrite Hv'.
    unfold record, set_watermark. cbn [calls].
    rewrite <- app_assoc. reflexivity.
Qed.

End LoopErrorFacts.

Section LoopErrorExamples.

Import PyStr Monitor App Loop.

(** X12 on the waiting loop with detection switched off. *)
Lemma tick_without_detection_abandons_episode_witness :
  let idle := mkApp (watermark waiting_app) (audio_manager waiting_app)
                false true [] in
  detecting idle && current_model idle = false
  /\ target_reached (self (watermark idle)) = true
  /\ target_reached
       (self (watermark
                (_update_video Protocol.always_two firing_reading
                   (Some 5) idle))) = false.
Proof.
  cbv zeta.
  assert (H : detecting (mkApp (watermark waiting_app)
                           (audio_manager waiting_app) false true [])
              && current_model (mkApp (watermark waiting_app)
                                  (audio_manager waiting_app) false true [])
              = false) by reflexivity.
  split; [exact H|]. split; [vm_compute; reflexivity|].
  exact (proj1 (proj2 (proj2 (proj2 (proj2
           (tick_without_detection_abandons_episode Protocol.always_two
              firing_reading (Some 5) _ H)))))).
Defined.

(** X13 on the firing tick with an unreadable target field. *)
Lemma unreadable_target_field_repeats_chime_witness :
  let r := mkReading 2 [] None Audio.Returns in
  detecting waiting_app && current_model waiting_app = true
  /\ fst (update_stats Protocol.always_two (now r) 5
            (watermark waiting_app)) = true
  /\ target_pills_var r = None
  /\ calls (_update_video Protocol.always_two r (Some 5) waiting_app)
     = calls waiting_app ++ [PlayBeep].
Proof.
  cbv zeta.
  assert (Hd : detecting waiting_app && current_model waiting_app = true)
    by (vm_compute; reflexivity).
  assert (Hf : fst (update_stats Protocol.always_two
                      (now (mkReading 2 [] None Audio.Returns)) 5
                      (watermark waiting_app)) = true)
    by (vm_compute; reflexivity).
  assert (Hv : target_pills_var (mkReading 2 [] None Audio.Returns) = None)
    by reflexivity.
  split; [exact Hd|]. split; [exact Hf|]. split; [exact Hv|].
  exact (proj1 (unreadable_target_field_repeats_chime Protocol.always_two
                  (mkReading 2 [] None Audio.Returns) 5 waiting_app Hd Hf Hv)).
Defined.

End LoopErrorExamples.

(** * Properties of the model list *)

Section RegistryFacts.

Import PyStr Registry.

Variable md5 : ModelFile.bytes -> ModelFile.bytes.
Variable temp_path : str -> str.

Lemma str_eqb_eq a b : str_eqb a b = true <-> a = b.
Proof.
  unfold str_eqb. destruct (list_eq_dec N.eq_dec a b); split;
    congruence.
Qed.

Lemma str_eqb_neq a b : str_eqb a b = false <-> a <> b.
Proof.
  unfold str_eqb. destruct (list_eq_dec N.eq_dec a b); split;
    congruence.
Qed.

Lemma get_setitem_same k v d : get k (setitem k v d) = Some v.
Proof.
  induction d as [|[k' v'] r IH]; cbn.
  - assert (E : str_eqb k k = true) by (apply str_eqb_eq; reflexivity).
    rewrite E. reflexivity.
  - destruct (str_eqb k k') eqn:E; cbn; rewrite E; [reflexivity|exact IH].
Qed.

Lemma get_setitem_other k k0 v d :
  k0 <> k -> get k0 (setitem k v d) = get k0 d.
Proof.
  intro Hne. induction d as [|[k' v'] r IH]; cbn.
  - apply str_eqb_neq in Hne. rewrite Hne. reflexivity.
  - destruct (str_eqb k k') eqn:E; cbn.
    + apply str_eqb_eq in E. subst k'.
      apply str_eqb_neq in Hne. rewrite Hne. reflexivity.
    + destruct (str_eqb k0 k'); [reflexivity|exact IH].
Qed.

Lemma get_remove_other k k0 d :
  k0 <> k -> get k0 (remove k d) = get k0 d.
Proof.
  intro Hne. induction d as [|[k' v'] r IH]; cbn; [reflexivity|].
  destruct (str_eqb k k') eqn:E; cbn.
  - apply str_eqb_eq in E. subst k'.
    apply str_eqb_neq in Hne. rewrite Hne. reflexivity.
  - destruct (str_eqb k0 k'); [reflexivity|exact IH].
Qed.

Lemma get_none_not_key k d : get k d = None -> ~ In k (keys d).
Proof.
  induction d as [|[k' v'] r IH]; cbn; [tauto|].
  destruct (str_eqb k k') eqn:E; [discriminate|].
  apply str_eqb_neq in E. intros H [H1|H1]; [congruence|].
  exact (IH H H1).
Qed.

Lemma get_remove_same k d :
  NoDup (keys d) -> get k (remove k d) = None.
Proof.
  induction d as [|[k' v'] r IH]; cbn; intro Hnd; [reflexivity|].
  inversion Hnd as [|? ? Hnotin Hnd']; subst.
  destruct (str_eqb k k') eqn:E; cbn.
  - apply str_eqb_eq in E. subst k'.
    destruct (get k r) eqn:G; [exfalso|reflexivity].
    apply Hnotin. clear - G.
    induction r as [|[k2 v2] r IHr]; cbn in *; [discriminate|].
    destruct (str_eqb k k2) eqn:E2.
    + apply str_eqb_eq in E2. left. congruence.
    + right. exact (IHr G).
  - rewrite E. exact (IH Hnd').
Qed.

Lemma length_setitem_new k v d :
  get k d = None -> List.length (setitem k v d) = S (List.length d).
Proof.
  induction d as [|[k' v'] r IH]; cbn; [reflexivity|].
  destruct (str_eqb k k'); [discriminate|].
  intro H. cbn. rewrite (IH H). reflexivity.
Qed.

Lemma length_remove_present k d p :
  get k d = Some p -> S (List.length (remove k d)) = List.length d.
Proof.
  induction d as [|[k' v'] r IH]; cbn; [discriminate|].
  destruct (str_eqb k k'); [reflexivity|].
  intro H. cbn. rewrite (IH H). reflexivity.
Qed.

(** X14.  Renaming the selected model to a new, non-empty name that
    is not in use moves its path to the new name: the new name gives the
    path, the old name is gone, every other name keeps its path, the
    list keeps its length, and the name of the loaded model follows
    when it was the one renamed. *)
Theorem rename_moves_the_path
    (old_name new_name path : str) (m : ModelList) :
  NoDup (keys (models m)) ->
  get old_name (models m) = Some path ->
  truthy new_name = true ->
  new_name <> old_name ->
  contains new_name (models m) = false ->
  let m' := _rename_model (Some old_name) (Some new_name) m in
  get new_name (models m') = Some path
  /\ get old_name (models m') = None
  /\ (forall k, k <> old_name -> k <> new_name ->
                get k (models m') = get k (models m))
  /\ List.length (models m') = List.length (models m)
  /\ current_model m' = current_model m
  /\ (current_model_name m = old_name -> current_model_name m' = new_name)
  /\ (current_model_name m <> old_name ->
      current_model_name m' = current_model_name m).
Proof.
  intros Hnd Hold Ht Hne Hnew. cbv zeta. unfold _rename_model.
  apply str_eqb_neq in Hne as Hne'.
  rewrite Ht, Hne', Hnew, Hold. cbn [andb negb models current_model
                                        current_model_name].
  assert (Hgone : get old_name (remove old_name (models m)) = None)
    by (apply get_remove_same; exact Hnd).
  assert (Hfree : get new_name (remove old_name (models m)) = None).
  { rewrite get_remove_other by exact Hne.
    unfold contains in Hnew. destruct (get new_name (models m));
      [discriminate|reflexivity]. }
  repeat split.
  - apply get_setitem_same.
  - rewrite get_setitem_other by congruence. exact Hgone.
  - intros k Hk1 Hk2.
    rewrite get_setitem_other by exact Hk2.
    apply get_remove_other. exact Hk1.
  - rewrite length_setitem_new by exact Hfree.
    apply (length_remove_present _ _ _ Hold).
  - intro H. apply str_eqb_eq in H. rewrite H. reflexivity.
  - intro H. apply str_eqb_neq in H. rewrite H. reflexivity.
Qed.

(** X15.  A model whose path ends in [.rp] is never loaded: since
    [decrypt_model] rejects every file, [_use_selected_model] leaves the
    loaded model and its name as they were, whatever the file holds. *)
Theorem encrypted_model_is_never_loaded
    (model_name model_path : str) (rp_file : option ModelFile.bytes)
    (writable yolo_ok : bool) (m : ModelList) :
  get model_name (models m) = Some model_path ->
  endswith model_path (of_string ".rp") = true ->
  _use_selected_model md5 temp_path (Some model_name) rp_file writable
    yolo_ok m = m.
Proof.
  intros Hget Hrp. unfold _use_selected_model. rewrite Hget, Hrp.
  rewrite (decrypt_model_header_mismatch md5 rp_file writable).
  reflexivity.
Qed.

Lemma contains_setitem k k0 v d :
  contains k0 d = true -> contains k0 (setitem k v d) = true.
Proof.
  unfold contains. intro H.
  destruct (list_eq_dec N.eq_dec k0 k) as [->|Hne].
  - rewrite get_setitem_same. reflexivity.
  - rewrite get_setitem_other by exact Hne. exact H.
Qed.

Lemma contains_remove_other k k0 d :
  k0 <> k -> contains k0 d = true -> contains k0 (remove k d) = true.
Proof.
  unfold contains. intros Hne H.
  rewrite get_remove_other by exact Hne. exact H.
Qed.

Lemma current_is_listed_step m o :
  current_is_listed m -> current_is_listed (exec_op md5 temp_path m o).
Proof.
  unfold current_is_listed. intro H.
  destruct o as [f n w | s n | s c | s f w y]; cbn [exec_op].
  - unfold _import_model.
    destruct (negb (truthy f)); [exact H|].
    destruct n as [name|]; [|exact H].
    destruct (negb (truthy name)); [exact H|].
    destruct (contains name (models m) && negb w); [exact H|].
    cbn. destruct H as [H|H]; [left; exact H|right].
    apply contains_setitem. exact H.
  - unfold _rename_model.
    destruct s as [old|]; [|exact H].
    destruct n as [name|]; [|exact H].
    destruct (truthy name && negb (str_eqb name old)); [|exact H].
    destruct (contains name (models m)); [exact H|].
    destruct (get old (models m)) as [path|]; [|exact H].
    cbn. destruct H as [H|H]; [left; exact H|right].
    destruct (str_eqb (current_model_name m) old) eqn:E.
    + unfold contains. rewrite get_setitem_same. reflexivity.
    + apply str_eqb_neq in E. apply contains_setitem.
      apply contains_remove_other; assumption.
  - unfold _delete_model.
    destruct s as [name|]; [|exact H].
    destruct (negb c); [exact H|].
    destruct (get name (models m)); [|exact H].
    destruct (str_eqb (current_model_name m) name) eqn:E; cbn.
    + left. reflexivity.
    + destruct H as [H|H]; [left; exact H|right].
      apply str_eqb_neq in E. apply contains_remove_other; assumption.
  - unfold _use_selected_model.
    destruct s as [name|]; [|exact H].
    destruct (get name (models m)) as [path|] eqn:G; [|exact H].
    assert (Hin : contains name (models m) = true)
      by (unfold contains; rewrite G; reflexivity).
    destruct (endswith path (of_string ".rp")).
    + destruct (negb (fst (ModelFile.decrypt_model md5 f w)));
        [exact H|].
      destruct y; [right; exact Hin | exact H].
    + destruct y; [right; exact Hin | exact H].
Qed.

(** X16.  Starting with the models read from the configuration and no
    model loaded, after any sequence of imports, renamings, deletions
    and loads, answered in any way by the dialogs, either no model is
    loaded or the name shown for the loaded model is a name of the
    list. *)
Theorem loaded_model_is_listed (from_config : dict) (ops : list Op) :
  current_is_listed
    (exec md5 temp_path ops (mkModels from_config None [])).
Proof.
  assert (H : forall m, current_is_listed m ->
                        current_is_listed (exec md5 temp_path ops m)).
  { induction ops as [|o ops IH]; intros m Hm; [exact Hm|].
    apply (IH (exec_op md5 temp_path m o)).
    apply current_is_listed_step. exact Hm. }
  apply H. left. reflexivity.
Qed.

End RegistryFacts.

Section RegistryExamples.

Import PyStr Registry.

(** X14 on a list of two models, the first of them loaded. *)
Lemma rename_moves_the_path_witness :
  let m := mkModels [(of_string "a", of_string "a.pt");
                     (of_string "b", of_string "b.pt")]
             (Some (of_string "a.pt")) (of_string "a") in
  let m' := _rename_model (Some (of_string "a")) (Some (of_string "c")) m in
  NoDup (keys (models m))
  /\ get (of_string "c") (models m') = Some (of_string "a.pt")
  /\ get (of_string "a") (models m') = None.
Proof.
  cbv zeta.
  assert (Hnd : NoDup (keys [(of_string "a", of_string "a.pt");
                             (of_string "b", of_string "b.pt")])).
  { repeat constructor; cbn; intuition discriminate. }
  split; [exact Hnd|].
  assert (Hne : of_string "c" <> of_string "a") by discriminate.
  destruct (rename_moves_the_path (of_string "a") (of_string "c")
              (of_string "a.pt")
              (mkModels [(of_string "a", of_string "a.pt");
                         (of_string "b", of_string "b.pt")]
                 (Some (of_string "a.pt")) (of_string "a"))
              Hnd eq_refl eq_refl Hne eq_refl) as (H1 & H2 & _).
  split; [exact H1 | exact H2].
Defined.

(** X15 on a model imported under a path ending in [.rp]. *)
Lemma encrypted_model_is_never_loaded_witness :
  let m := mkModels [(of_string "a", of_string "best.rp")] None [] in
  get (of_string "a") (models m) = Some (of_string "best.rp")
  /\ endswith (of_string "best.rp") (of_string ".rp") = true
  /\ _use_selected_model (fun d => d) (fun n => n) (Some (of_string "a"))
       (Some []) true true m = m.
Proof.
  cbv zeta.
  assert (H1 : get (of_string "a")
                 (models (mkModels [(of_string "a", of_string "best.rp")]
                            None []))
               = Some (of_string "best.rp")) by reflexivity.
  assert (H2 : endswith (of_string "best.rp") (of_string ".rp") = true)
    by reflexivity.
  split; [exact H1|]. split; [exact H2|].
  exact (encrypted_model_is_never_loaded (fun d => d) (fun n => n)
           (of_string "a") (of_string "best.rp") (Some []) true true
           _ H1 H2).
Defined.

End RegistryExamples.
